(** * insigniaDNS: record model, zone table and resolver

    A shallow embedding of [insigniaDNS.py]: the [Record] class, the
    module-level loop that fills [ZONES], and [Resolver.resolve].

    Python dictionaries keep insertion order and the resolver iterates
    over one, so a dictionary is an association list with the
    insertion discipline of [dict.__setitem__].  A zone entry (a JSON
    object that is only read by key) is a [gmap].  Exceptions are
    values of [exn]; code that both raises and touches mutable state
    runs in the monad [prog]. *)

From Stdlib Require Import Ascii String DecimalString.
From stdpp Require Import gmap strings list.

Set Warnings "-register-all".
Local Open Scope Z_scope.

(** ** Exceptions and the two monads *)

Inductive exn :=
| KeyError (key : string)
| AttributeError (attr : string)
| LibraryError (what : string)
| ValueError_attr (attr : string).

Inductive result (T : Type) :=
| Ok (v : T)
| Raise (e : exn).
Arguments Ok {T} v.
Arguments Raise {T} e.

Definition result_bind {T U} (c : result T) (k : T -> result U) : result U :=
  match c with
  | Ok v => k v
  | Raise e => Raise e
  end.

Notation "'let?' x := c 'in' k" := (result_bind c (fun x => k))
  (at level 10, x name, c at level 100, k at level 200).

(** A computation over a mutable state [S]: it returns a value or raises,
    and in both cases leaves a state behind. *)
Definition prog (S T : Type) : Type := S -> result T * S.

Definition ret {S T} (v : T) : prog S T := fun s => (Ok v, s).
Definition raise {S T} (e : exn) : prog S T := fun s => (Raise e, s).
Definition bind {S T U} (c : prog S T) (k : T -> prog S U) : prog S U :=
  fun s => match c s with
           | (Ok v, s') => k v s'
           | (Raise e, s') => (Raise e, s')
           end.
Definition gets {S T} (f : S -> T) : prog S T := fun s => (Ok (f s), s).
Definition modify {S} (f : S -> S) : prog S unit := fun s => (Ok tt, f s).
Definition lift {S T} (c : result T) : prog S T := fun s => (c, s).

Notation "'let*' x := c 'in' k" := (bind c (fun x => k))
  (at level 10, x name, c at level 100, k at level 200).

(** [for x in l: body x] *)
Fixpoint for_each {S T} (body : T -> prog S unit) (l : list T) : prog S unit :=
  match l with
  | [] => ret tt
  | x :: rest => let* _ := body x in for_each body rest
  end.

(** ** Python dictionaries *)

Section dict.
Context {K V : Type} (eqb : K -> K -> bool).

(** [d.get(k)] *)
Fixpoint dict_get (d : list (K * V)) (k : K) : option V :=
  match d with
  | [] => None
  | (k', v) :: rest => if eqb k' k then Some v else dict_get rest k
  end.

(** [d[k] = v]: an existing key keeps its place (and the stored key
    object), a new key goes last. *)
Fixpoint dict_set (k : K) (v : V) (d : list (K * V)) : list (K * V) :=
  match d with
  | [] => [(k, v)]
  | (k', v') :: rest =>
      if eqb k' k then (k', v) :: rest else (k', v') :: dict_set k v rest
  end.
End dict.

Definition str_eqb (a b : string) : bool := bool_decide (a = b).

(** [zone[key]] on a JSON object; the provider's entries carry string
    fields. *)
Definition getitem (zone : gmap string string) (key : string) : result string :=
  match zone !! key with
  | Some v => Ok v
  | None => Raise (KeyError key)
  end.

(** ** What the program takes from dnslib and from the host *)

(** The rdata classes of dnslib; [OtherRD] stands for any class that
    [TYPE_LOOKUP] does not list. *)
Inductive rdata_class :=
| A | AAAA | CNAME | MX | NS | SOA | TXT
| OtherRD (name : string).

Global Instance rdata_class_eq_dec : EqDecision rdata_class.
Proof. solve_decision. Defined.

(** Positional arguments handed to an rdata constructor. *)
Inductive pyval :=
| PStr (s : string)
| PInt (z : Z)
| PTuple (items : list pyval).

(** An rdata object is kept as the constructor call that made it. *)
Record RD := { rd_class : rdata_class; rd_args : list pyval }.

(** [QTYPE] codes (RFC 1035, RFC 3596). *)
Module QTYPE.
Definition A : Z := 1.
Definition NS : Z := 2.
Definition CNAME : Z := 5.
Definition SOA : Z := 6.
Definition MX : Z := 15.
Definition TXT : Z := 16.
Definition AAAA : Z := 28.
Definition ANY : Z := 255.
End QTYPE.

(** The operations of dnslib the program calls.  They are not part of
    the repository, so the development is stated over any
    implementation of them. *)
Class DnsLib := {
  DNSLabel : Type;
  (** [DNSLabel(k)] for a string [k] *)
  DNSLabel_new : string -> result DNSLabel;
  (** [__eq__], with which [__hash__] agrees *)
  label_eqb : DNSLabel -> DNSLabel -> bool;
  (** truth value of a label, as Python's [or] tests it *)
  label_truthy : DNSLabel -> bool;
  (** [name.matchSuffix(zone)] *)
  matchSuffix : DNSLabel -> DNSLabel -> bool;
  (** [None] when the constructor call builds an rdata, the exception otherwise *)
  rdata_check : rdata_class -> list pyval -> option exn;
}.

(** The process environment: the start-up clock and the system resolver. *)
Class Host := {
  (** [int((datetime.utcnow() - EPOCH).total_seconds())] at import time *)
  SERIAL : Z;
  gethostbyname : string -> result string;
}.

Section Program.
Context {lib : DnsLib} {host : Host}.

Definition TYPE_LOOKUP (c : rdata_class) : result Z :=
  match c with
  | A => Ok QTYPE.A
  | AAAA => Ok QTYPE.AAAA
  | CNAME => Ok QTYPE.CNAME
  | MX => Ok QTYPE.MX
  | NS => Ok QTYPE.NS
  | SOA => Ok QTYPE.SOA
  | TXT => Ok QTYPE.TXT
  | OtherRD name => Raise (KeyError name)
  end.

(** the call of an rdata class on the positional arguments *)
Definition rdata_new (cls : rdata_class) (args : list pyval) : result RD :=
  match rdata_check cls args with
  | None => Ok {| rd_class := cls; rd_args := args |}
  | Some e => Raise e
  end.

(** *** class Record *)

(** [self.kwargs]: [rdata], [ttl] and what [**kwargs] may carry for
    [RR], its [rclass]. *)
Record kwargs_t := {
  kw_rdata : RD;
  kw_ttl : Z;
  kw_rclass : option Z;
}.

Record RecordObj := {
  _rtype : Z;
  _rname : option DNSLabel;
  kwargs : kwargs_t;
}.

(** dnslib's [RR]; [rclass] defaults to 1. *)
Record RR := {
  rr_rname : DNSLabel;
  rr_rtype : Z;
  rr_rclass : Z;
  rr_ttl : Z;
  rr_rdata : RD;
}.

(** The first positional argument of [Record]: an rdata instance or
    an rdata class. *)
Inductive rdata_arg :=
| Instance_ (rd : RD)
| Class_ (cls : rdata_class).

(** [sensible_ttl] reads [self._rtype] only. *)
Definition sensible_ttl (rtype : Z) : Z :=
  if bool_decide (rtype = QTYPE.NS) || bool_decide (rtype = QTYPE.SOA)
  then 60 * 60 * 24
  else 300.

(** The times appended to a two-argument SOA: one tuple. *)
Definition soa_times : pyval :=
  PTuple [PInt SERIAL;        (* serial number *)
          PInt (60 * 60 * 1); (* refresh *)
          PInt (60 * 60 * 3); (* retry *)
          PInt (60 * 60 * 24);(* expire *)
          PInt (60 * 60 * 1)  (* minimum *)].

Definition Record_init (rdata_type : rdata_arg) (args : list pyval)
    (rtype : option Z) (rname : option DNSLabel) (ttl : option Z)
    (rclass : option Z) : result RecordObj :=
  let? tr :=
    match rdata_type with
    | Instance_ rd =>
        let? t := TYPE_LOOKUP (rd_class rd) in
        Ok (t, rd)
    | Class_ cls =>
        let? t := TYPE_LOOKUP cls in
        let args :=
          if bool_decide (cls = SOA) && bool_decide (length args = 2%nat)
          then args ++ [soa_times]
          else args in
        let? rd := rdata_new cls args in
        Ok (t, rd)
    end in
  let self_rtype :=
    match rtype with
    | Some t => if bool_decide (t = 0) then fst tr else t
    | None => fst tr
    end in
  Ok {| _rtype := self_rtype;
        _rname := rname;
        kwargs := {| kw_rdata := snd tr;
                     kw_ttl := match ttl with
                               | None => sensible_ttl self_rtype
                               | Some t => t
                               end;
                     kw_rclass := rclass |} |}.

(** [self._rname or alt_rname] *)
Definition rname_or (self : RecordObj) (alt_rname : DNSLabel) : DNSLabel :=
  match _rname self with
  | Some l => if label_truthy l then l else alt_rname
  | None => alt_rname
  end.

(** An attribute of [RR] that holds an unsigned integer of at most
    [top]. *)
Definition fits (top : Z) (v : Z) : bool := (0 <=? v) && (v <=? top).

(** dnslib's [RR(rname, rtype, rclass, ttl, rdata)].  [rtype] and
    [rclass] are 16-bit attributes and [ttl] is a 32-bit one; they are
    assigned in this order, and assigning a value out of range raises
    [ValueError]. *)
Definition RR_new (rname : DNSLabel) (rtype rclass ttl : Z) (rdata : RD)
  : result RR :=
  if negb (fits 65535 rtype) then Raise (ValueError_attr "rtype")
  else if negb (fits 65535 rclass) then Raise (ValueError_attr "rclass")
  else if negb (fits 4294967295 ttl) then Raise (ValueError_attr "ttl")
  else Ok {| rr_rname := rname;
             rr_rtype := rtype;
             rr_rclass := rclass;
             rr_ttl := ttl;
             rr_rdata := rdata |}.

(** [RR(rname=self._rname or alt_rname, rtype=self._rtype, **self.kwargs)];
    an [rclass] that [kwargs] does not carry is 1. *)
Definition as_rr (self : RecordObj) (alt_rname : DNSLabel) : result RR :=
  RR_new (rname_or self alt_rname)
         (_rtype self)
         (default 1 (kw_rclass (kwargs self)))
         (kw_ttl (kwargs self))
         (kw_rdata (kwargs self)).

Record DNSQuestion := { qname : DNSLabel; qtype : Z }.

(** [try_rr] falls off its end, returning [None], when the test fails. *)
Definition try_rr (self : RecordObj) (q : DNSQuestion) : result (option RR) :=
  if bool_decide (qtype q = QTYPE.ANY) || bool_decide (qtype q = _rtype self)
  then let? answer := as_rr self (qname q) in Ok (Some answer)
  else Ok None.

Definition is_soa (self : RecordObj) : bool :=
  bool_decide (_rtype self = QTYPE.SOA).

(** *** The module-level loop over [zones] *)

Definition zones_dict : Type := list (string * list RecordObj).

Definition zone_body (zone : gmap string string) : prog zones_dict unit :=
  let* ty := lift (getitem zone "type") in
  if bool_decide (ty = "a") then
    let* value := lift (getitem zone "value") in
    let* r := lift (Record_init (Class_ A) [PStr value] None None None None) in
    let* name := lift (getitem zone "name") in
    modify (dict_set str_eqb name [r])
  else
    let* ty := lift (getitem zone "type") in
    if bool_decide (ty = "p") then
      let* value := lift (getitem zone "value") in
      let* ip := lift (gethostbyname value) in
      let* r := lift (Record_init (Class_ A) [PStr ip] None None None None) in
      let* name := lift (getitem zone "name") in
      modify (dict_set str_eqb name [r])
    else ret tt.

(** [ZONES = {}] followed by [for zone in zones: ...] *)
Definition load_zones (zones : list (gmap string string))
  : result unit * zones_dict :=
  for_each zone_body zones [].

(** *** class Resolver *)

Definition label_dict : Type := list (DNSLabel * list RecordObj).

Record Resolver := { zones : label_dict }.

(** [{DNSLabel(k): v for k, v in ZONES.items()}] *)
Fixpoint relabel (items : zones_dict) (acc : label_dict) : result label_dict :=
  match items with
  | [] => Ok acc
  | (k, v) :: rest =>
      let? l := DNSLabel_new k in
      relabel rest (dict_set label_eqb l v acc)
  end.

Definition Resolver_init (ZONES : zones_dict) : result Resolver :=
  let? zs := relabel ZONES [] in
  Ok {| zones := zs |}.

(** The script from the zone loop to [resolver = Resolver()]: an
    exception in the loop ends the process before a resolver exists. *)
Definition startup (zone_entries : list (gmap string string)) : result Resolver :=
  match load_zones zone_entries with
  | (Ok _, ZONES) => Resolver_init ZONES
  | (Raise e, _) => Raise e
  end.

(** A request or a reply: the question and the answer section. *)
Record DNSRecord := { q : DNSQuestion; rr : list RR }.

(** [request.reply()]: same question, no answers yet. *)
Definition reply_of (request : DNSRecord) : DNSRecord :=
  {| q := q request; rr := [] |}.

Definition add_answer (reply : DNSRecord) (r : RR) : DNSRecord :=
  {| q := q reply; rr := rr reply ++ [r] |}.

(** What [print] in [resolve] writes. *)
Inductive log_line :=
| DNS_Match (name : DNSLabel) (rdata : RD).

(** The mutable state [resolve] runs in: the resolver object and the
    console. *)
Record world := { self : Resolver; stdout : list log_line }.

(** [print(f"[INFO] DNS Match: {qname} > {rr.rdata}")]: formatting
    reads [rr.rdata], which [None] does not have. *)
Definition print_match (name : DNSLabel) (r : option RR) : prog world unit :=
  match r with
  | Some r =>
      modify (fun w => {| self := self w;
                          stdout := stdout w ++ [DNS_Match name (rr_rdata r)] |})
  | None => raise (AttributeError "rdata")
  end.

(** [for zone_records in zone: ...] of the exact-match branch *)
Fixpoint exact_loop (question : DNSQuestion) (zone : list RecordObj)
    (reply : DNSRecord) : prog world DNSRecord :=
  match zone with
  | [] => ret reply
  | zone_records :: rest =>
      let* r := lift (try_rr zone_records question) in
      let* _ := print_match (qname question) r in
      (* rr and reply.add_answer(rr); an RR object is truthy *)
      let reply := match r with
                   | Some r => add_answer reply r
                   | None => reply
                   end in
      exact_loop question rest reply
  end.

(** [for zone_label, zone_records in self.zones.items(): ...] of the
    fallback branch; [next(r for r in zone_records if r.is_soa)] is
    [find]. *)
Fixpoint fallback_loop (name : DNSLabel) (items : label_dict)
    (reply : DNSRecord) : result DNSRecord :=
  match items with
  | [] => Ok reply
  | (zone_label, zone_records) :: rest =>
      if matchSuffix name zone_label then
        match List.find is_soa zone_records with
        | None => fallback_loop name rest reply
        | Some soa_record =>
            let? answer := as_rr soa_record zone_label in
            Ok (add_answer reply answer)
        end
      else fallback_loop name rest reply
  end.

(** [resolve(self, request, handler)]; [handler] is not used and
    [self] is read from the state. *)
Definition resolve (request : DNSRecord) : prog world DNSRecord :=
  let reply := reply_of request in
  let* zs := gets (fun w => zones (self w)) in
  match dict_get label_eqb zs (qname (q request)) with
  | Some zone => exact_loop (q request) zone reply
  | None => lift (fallback_loop (qname (q request)) zs reply)
  end.

End Program.

(** ** A reference implementation of the external operations

    Used to run the program on concrete tables. *)

Module Reference.

Definition lower_ascii (c : ascii) : ascii :=
  let n := nat_of_ascii c in
  if (65 <=? n)%nat && (n <=? 90)%nat then ascii_of_nat (n + 32) else c.

Fixpoint lower (s : string) : string :=
  match s with
  | EmptyString => EmptyString
  | String c rest => String (lower_ascii c) (lower rest)
  end.

Fixpoint split_dots (s : string) : list string :=
  match s with
  | EmptyString => [EmptyString]
  | String c rest =>
      if Ascii.eqb c "."%char then EmptyString :: split_dots rest
      else match split_dots rest with
           | [] => [String c EmptyString]
           | w :: ws => String c w :: ws
           end
  end.

(** The string without its trailing dots. *)
Fixpoint without_trailing_dots (s : string) : string :=
  match s with
  | EmptyString => EmptyString
  | String c rest =>
      match without_trailing_dots rest with
      | EmptyString => if Ascii.eqb c "."%char then EmptyString
                       else String c EmptyString
      | kept => String c kept
      end
  end.

(** Modelled from the spec: dnslib's [DNSLabel(...)], absent from the
    repository.  "A hierarchical, case-insensitive sequence of labels
    (e.g. xboxlive.com = labels [xboxlive, com])", which must "ignore a
    trailing root label distinction": trailing dots are dropped, and
    what is then empty is the root. *)
Definition label_of_string (s : string) : list string :=
  match without_trailing_dots s with
  | EmptyString => []
  | kept => split_dots kept
  end.

(** Modelled from the spec: dnslib's [DNSLabel.__eq__].
    "Case-insensitive, label-for-label equality." *)
Fixpoint labels_eqb (a b : list string) : bool :=
  match a, b with
  | [], [] => true
  | x :: a', y :: b' => str_eqb (lower x) (lower y) && labels_eqb a' b'
  | _, _ => false
  end.

(** Modelled from the spec: dnslib's [DNSLabel.matchSuffix].  "True
    when candidate's label sequence ends with zoneLabel's label
    sequence." *)
Definition ends_with (candidate zoneLabel : list string) : bool :=
  (length zoneLabel <=? length candidate)%nat
  && labels_eqb (drop (length candidate - length zoneLabel) candidate) zoneLabel.

Fixpoint digits (s : string) (acc : N) : option N :=
  match s with
  | EmptyString => Some acc
  | String c rest =>
      let n := N_of_ascii c in
      if (48 <=? n)%N && (n <=? 57)%N
      then digits rest (10 * acc + (n - 48))%N
      else None
  end.

Definition octet (s : string) : bool :=
  match s with
  | EmptyString => false
  | _ => match digits s 0%N with
         | Some n => (n <=? 255)%N
         | None => false
         end
  end.

(** Modelled from the spec: dnslib's [A(...)] constructor.  "Value is
    a literal IPv4 address"; "an address that fails to parse" makes
    construction fail. *)
Definition ipv4_literal (s : string) : bool :=
  match split_dots s with
  | [a; b; c; d] => octet a && octet b && octet c && octet d
  | _ => false
  end.

(** Modelled from the spec: the constructor calls dnslib refuses.  Only
    the address of an A rdata is constrained. *)
Definition check (cls : rdata_class) (args : list pyval) : option exn :=
  match cls, args with
  | A, [PStr s] => if ipv4_literal s then None else Some (LibraryError "A")
  | A, _ => Some (LibraryError "A")
  | _, _ => None
  end.

(** Modelled from the spec: the dnslib operations as section 3 and 4.1
    describe them.  Every string makes a label, and an owner override
    that is present is used. *)
#[export] Instance lib : DnsLib := {|
  DNSLabel := list string;
  DNSLabel_new := fun s => Ok (label_of_string s);
  label_eqb := labels_eqb;
  label_truthy := fun _ => true;
  matchSuffix := ends_with;
  rdata_check := check;
|}.

(** A host whose clock read 1700000000 at start-up and whose
    resolver knows one name. *)
#[export] Instance host : Host := {|
  SERIAL := 1700000000;
  gethostbyname := fun name =>
    if bool_decide (name = "insignia.live") then Ok "46.101.91.123"
    else Raise (LibraryError "gaierror");
|}.

End Reference.

(** ** Vocabulary of the statements *)

Section Vocabulary.
Context {lib : DnsLib} {host : Host}.

(** The rtype a record ends up with: an [rtype=] keyword wins unless
    it is falsy. *)
Definition effective_rtype (rtype : option Z) (looked_up : Z) : Z :=
  match rtype with
  | Some t => if bool_decide (t = 0) then looked_up else t
  | None => looked_up
  end.

(** A zone of the fallback scan that cannot answer: the name is not
    under it, or it holds no SOA record. *)
Definition passed_over (name : DNSLabel) (z : DNSLabel * list RecordObj) : Prop :=
  matchSuffix name z.1 = false \/ Forall (fun r => is_soa r = false) z.2.

(** The record answers the query type: the test of [try_rr]. *)
Definition asked_for (r : RecordObj) (question : DNSQuestion) : bool :=
  bool_decide (qtype question = QTYPE.ANY)
  || bool_decide (qtype question = _rtype r).

(** [RR(...)] takes the record's type, class and TTL: they are within
    the 16, 16 and 32 bits that the attributes of [RR] hold. *)
Definition accepted (r : RecordObj) : bool :=
  fits 65535 (_rtype r)
  && fits 65535 (default 1 (kw_rclass (kwargs r)))
  && fits 4294967295 (kw_ttl (kwargs r)).

(** The RR made from an accepted record. *)
Definition answer_of (r : RecordObj) (alt_rname : DNSLabel) : RR :=
  {| rr_rname := rname_or r alt_rname;
     rr_rtype := _rtype r;
     rr_rclass := default 1 (kw_rclass (kwargs r));
     rr_ttl := kw_ttl (kwargs r);
     rr_rdata := kw_rdata (kwargs r) |}.

(** The answers of the exact-match loop when nothing goes wrong. *)
Definition matching_answers (question : DNSQuestion) (zone : list RecordObj)
  : list RR :=
  map (fun r => answer_of r (qname question)) zone.

(** The record the zone loop builds for an address: [Record(A, addr)]. *)
Definition address_record (addr : string) : RecordObj :=
  {| _rtype := QTYPE.A;
     _rname := None;
     kwargs := {| kw_rdata := {| rd_class := A; rd_args := [PStr addr] |};
                  kw_ttl := 300;
                  kw_rclass := None |} |}.

(** A well-formed zone entry for [name] and [addr]: it has a name, it
    is of type "a" with the address as value or of type "p" with a
    host that resolves to the address, and the library takes the
    address. *)
Definition well_formed (zone : gmap string string) (name addr : string) : Prop :=
  zone !! "name" = Some name /\
  ((zone !! "type" = Some "a" /\ zone !! "value" = Some addr) \/
   (zone !! "type" = Some "p" /\
    exists target, zone !! "value" = Some target /\ gethostbyname target = Ok addr)) /\
  rdata_check A [PStr addr] = None.

(** An entry that lacks a key the loop reads: no type, or a type the
    loop handles together with no name or no value. *)
Definition lacks_key (zone : gmap string string) : Prop :=
  zone !! "type" = None \/
  ((zone !! "type" = Some "a" \/ zone !! "type" = Some "p") /\
   (zone !! "name" = None \/ zone !! "value" = None)).

(** An entry of a type the loop does not handle. *)
Definition unhandled_type (zone : gmap string string) : Prop :=
  exists ty, zone !! "type" = Some ty /\ ty <> "a" /\ ty <> "p".

(** The names of a list in order of first appearance, skipping those
    already [seen]. *)
Fixpoint first_occurrences (seen names : list string) : list string :=
  match names with
  | [] => []
  | n :: rest =>
      if bool_decide (n ∈ seen) then first_occurrences seen rest
      else n :: first_occurrences (n :: seen) rest
  end.

(** The address the last entry for [name] gives. *)
Fixpoint last_address (name : string) (keyed : list (string * string))
  : option string :=
  match keyed with
  | [] => None
  | (n, a) :: rest =>
      match last_address name rest with
      | Some a' => Some a'
      | None => if bool_decide (n = name) then Some a else None
      end
  end.

(** One step of the loop on a well-formed entry, as an update of
    [ZONES]. *)
Definition put_address (ZONES : zones_dict) (na : string * string) : zones_dict :=
  dict_set str_eqb na.1 [address_record na.2] ZONES.

(** A bucket with exactly one record, of kind A. *)
Definition single_A (zone_records : list RecordObj) : Prop :=
  exists r, zone_records = [r] /\ _rtype r = QTYPE.A.

(** *** The claims that fail, as they are worded *)


(** Zone loop: "appends one A-kind Record per entry to the record
    list keyed by that entry's name, creating a new bucket only when
    the key is new". *)
Definition append_address (ZONES : zones_dict) (na : string * string) : zones_dict :=
  match dict_get str_eqb ZONES na.1 with
  | Some bucket => dict_set str_eqb na.1 (bucket ++ [address_record na.2]) ZONES
  | None => dict_set str_eqb na.1 [address_record na.2] ZONES
  end.

Definition append_claim (entries : list (gmap string string))
    (keyed : list (string * string)) : Prop :=
  Forall2 (fun zone na => well_formed zone na.1 na.2) entries keyed ->
  load_zones entries = (Ok tt, fold_left append_address keyed []).

(** Zone loop: a malformed entry is "an entry missing its type, name,
    or value, or whose type is not one of the recognized kinds", and
    with one in the input "construction fails". *)
Definition malformed (zone : gmap string string) : Prop :=
  zone !! "type" = None \/ zone !! "name" = None \/ zone !! "value" = None \/
  unhandled_type zone.

Definition malformed_fails_claim (entries : list (gmap string string)) : Prop :=
  Exists malformed entries -> exists e, startup entries = Raise e.

End Vocabulary.

(** ** Concrete tables and requests *)

Module Examples.
Import Reference.

Definition entry (ty name value : string) : gmap string string :=
  {[ "type" := ty; "name" := name; "value" := value ]}.

Definition request (name : string) (qtype : Z) : DNSRecord :=
  {| q := {| qname := label_of_string name; qtype := qtype |}; rr := [] |}.

Definition serving (zs : label_dict) : world :=
  {| self := {| zones := zs |}; stdout := [] |}.


(** [Record(NS, "ns1.example.com")] *)
Definition ns_record : RecordObj :=
  {| _rtype := QTYPE.NS;
     _rname := None;
     kwargs := {| kw_rdata := {| rd_class := NS;
                                 rd_args := [PStr "ns1.example.com"] |};
                  kw_ttl := 86400;
                  kw_rclass := None |} |}.

(** [Record(A, "1.2.3.4", ttl=0)] *)
Definition zero_ttl_record : RecordObj :=
  {| _rtype := QTYPE.A;
     _rname := None;
     kwargs := {| kw_rdata := {| rd_class := A; rd_args := [PStr "1.2.3.4"] |};
                  kw_ttl := 0;
                  kw_rclass := None |} |}.

Definition soa_rdata : RD :=
  {| rd_class := SOA;
     rd_args := [PStr "ns.com"; PStr "admin.com";
                 PTuple [PInt 1700000000; PInt 3600; PInt 10800;
                         PInt 86400; PInt 3600]] |}.

(** [Record(SOA, "ns.com", "admin.com")] *)
Definition com_soa : RecordObj :=
  {| _rtype := QTYPE.SOA;
     _rname := None;
     kwargs := {| kw_rdata := soa_rdata; kw_ttl := 86400; kw_rclass := None |} |}.

(** [Record(SOA, "ns.com", "admin.com", rname=DNSLabel("hidden.example.org"))] *)
Definition renamed_soa : RecordObj :=
  {| _rtype := QTYPE.SOA;
     _rname := Some ["hidden"; "example"; "org"];
     kwargs := {| kw_rdata := soa_rdata; kw_ttl := 86400; kw_rclass := None |} |}.

(** [Record(A, "1.2.3.4", ttl=-1)] *)
Definition negative_ttl_record : RecordObj :=
  {| _rtype := QTYPE.A;
     _rname := None;
     kwargs := {| kw_rdata := {| rd_class := A; rd_args := [PStr "1.2.3.4"] |};
                  kw_ttl := -1;
                  kw_rclass := None |} |}.


(** [example.com] with the record of negative TTL. *)
Definition negative_ttl : label_dict := [(["example"; "com"], [negative_ttl_record])].


(** [example.com] with no record at all. *)
Definition empty_zone : label_dict := [(["example"; "com"], [])].

(** One entry from the provider. *)
Definition one_entry : list (gmap string string) :=
  [entry "a" "example.com" "1.2.3.4"].

Definition one_zone : label_dict :=
  [(["example"; "com"], [address_record "1.2.3.4"])].


(** [com] with an SOA, then [example.com] with an A. *)
Definition shadowing : label_dict :=
  [(["com"], [com_soa]); (["example"; "com"], [address_record "1.2.3.4"])].


(** [com] with an SOA that carries its own owner name. *)
Definition renamed : label_dict := [(["com"], [renamed_soa])].

(** Two entries for one name, with one for another name in between. *)
Definition repeated_name : list (gmap string string) :=
  [entry "a" "x.com" "1.1.1.1";
   entry "p" "y.com" "insignia.live";
   entry "a" "x.com" "2.2.2.2"].

Definition repeated_name_keyed : list (string * string) :=
  [("x.com", "1.1.1.1"); ("y.com", "46.101.91.123"); ("x.com", "2.2.2.2")].

(** An entry of a type the loop does not know, after a good one. *)
Definition unknown_type : list (gmap string string) :=
  [entry "a" "x.com" "1.1.1.1"; entry "txt" "y.com" "hello"].

(** An entry of type "a" without a value, after a good one. *)
Definition missing_value : list (gmap string string) :=
  [entry "a" "x.com" "1.1.1.1"; {[ "type" := "a"; "name" := "y.com" ]}].

(** Tactics that check an entry of [repeated_name] against
    [well_formed]. *)
Ltac address_entry :=
  split; [reflexivity | split; [left; split; reflexivity | reflexivity]].
Ltac pointer_entry target :=
  split; [reflexivity
         | split; [right; split; [reflexivity
                                 | exists target; split; reflexivity]
                  | reflexivity]].

End Examples.

(** ** Vocabulary of the further statements *)

Section MoreVocabulary.
Context {lib : DnsLib} {host : Host}.

(** The loop body reads an entry further only when its type is "a" or
    "p"; an entry without a type is read, and fails. *)
Definition handled (zone : gmap string string) : bool :=
  match zone !! "type" with
  | Some ty => bool_decide (ty = "a") || bool_decide (ty = "p")
  | None => true
  end.

(** An address that some entry of the input offers: the value of an
    "a" entry, or what the host of a "p" entry resolves to. *)
Definition offered (entries : list (gmap string string)) (addr : string) : Prop :=
  exists zone, zone ∈ entries /\
    ((zone !! "type" = Some "a" /\ zone !! "value" = Some addr) \/
     (zone !! "type" = Some "p" /\
      exists target, zone !! "value" = Some target /\ gethostbyname target = Ok addr)).

(** A bucket as the loop makes them from [entries]. *)
Definition address_bucket (entries : list (gmap string string))
    (zone_records : list RecordObj) : Prop :=
  exists addr, zone_records = [address_record addr] /\
               rdata_check A [PStr addr] = None /\
               offered entries addr.

(** The records of the last item of [ZONES] whose name makes a label
    equal to [l]. *)
Fixpoint last_labelled (l : DNSLabel) (items : zones_dict)
  : option (list RecordObj) :=
  match items with
  | [] => None
  | (k, v) :: rest =>
      match last_labelled l rest with
      | Some v' => Some v'
      | None =>
          match DNSLabel_new k with
          | Ok l' => if label_eqb l' l then Some v else None
          | Raise _ => None
          end
      end
  end.

(** How the fallback scan for [name] over [items] ends: with the
    answers it adds to a reply, or with an exception. *)
Definition fallback_answers (name : DNSLabel) (items : label_dict)
  : result (list RR) :=
  match fallback_loop name items
          {| q := {| qname := name; qtype := 0 |}; rr := [] |} with
  | Ok reply => Ok (rr reply)
  | Raise e => Raise e
  end.

End MoreVocabulary.

(** ** The rest of the script

    [get_platform], [format_ip], [get_ip], and the statements between
    [ZONES = {}] and [resolver = Resolver()] that fetch and parse the
    zone list. *)

(** *** Python built-ins, exceptions and the run-time environment *)

(** [s.split(sep)] for a one-character separator. *)
Fixpoint str_split (sep : ascii) (s : string) : list string :=
  match s with
  | EmptyString => [EmptyString]
  | String c rest =>
      if Ascii.eqb c sep then EmptyString :: str_split sep rest
      else match str_split sep rest with
           | [] => [String c EmptyString]
           | piece :: pieces => String c piece :: pieces
           end
  end.

(** [s.replace(old, new)] for a one-character [old]. *)
Fixpoint str_replace (old : ascii) (new : string) (s : string) : string :=
  match s with
  | EmptyString => EmptyString
  | String c rest =>
      if Ascii.eqb c old then new +:+ str_replace old new rest
      else String c (str_replace old new rest)
  end.

(** [c in s] for a character [c]. *)
Fixpoint str_contains (c : ascii) (s : string) : bool :=
  match s with
  | EmptyString => false
  | String c' rest => Ascii.eqb c' c || str_contains c rest
  end.

Fixpoint zeros (n : nat) : string :=
  match n with
  | O => EmptyString
  | S n => String "0" (zeros n)
  end.

Definition zero_pad (width : nat) (s : string) : string :=
  zeros (width - String.length s) +:+ s.

Definition decimal (n : N) : string := NilZero.string_of_uint (N.to_uint n).

(** [f"{n:03d}"]: at least three characters, the sign counted, zeros
    put after the sign. *)
Definition format_03d (n : Z) : string :=
  if n <? 0 then String "-" (zero_pad 2 (decimal (Z.to_N (- n))))
  else zero_pad 3 (decimal (Z.to_N n)).

(** How a statement of the script can end other than by going on. *)
Inductive fault :=
| IndexError
| ValueError
| NameError (name : string)
| SystemExit (code : Z)
| Uncaught (e : exn).

Inductive outcome (T : Type) :=
| Returns (v : T)
| Fails (f : fault).
Arguments Returns {T} v.
Arguments Fails {T} f.

(** What [requests.get] does: a response, or one of the two exceptions
    the script catches ([Timeout] is a [RequestException]; the script
    tests for it first). *)
Inductive get_result :=
| Response (text : string)
| Timeout
| RequestException (message : string).

(** What the script takes from the interpreter, the network and the
    JSON library. *)
Class Runtime := {
  (** [int(s)]; [None] is [ValueError] *)
  py_int : string -> option Z;
  (** [get(url, headers={"User-Agent": agent})] *)
  get : string -> string -> get_result;
  (** [loads(text)] for a text that is a list of objects with string
      fields; [None] is [ValueError] *)
  loads : string -> option (list (gmap string string));
  (** [s.connect((address, port))] on the probe socket *)
  connect : string -> Z -> result unit;
  (** [s.getsockname()[0]] *)
  getsockname : result string;
}.

Section Script.
Context {lib : DnsLib} {host : Host} {runtime : Runtime}.

(** *** get_platform *)

Definition platforms : list (string * string) :=
  [("linux1", "Linux"); ("linux2", "Linux"); ("darwin", "macOS"); ("win32", "Windows")].

(** [platform] is [sys.platform]. *)
Definition get_platform (platform : string) : string :=
  match dict_get str_eqb platforms platform with
  | None => platform
  | Some name => name
  end.

Definition insigniaDNS_VERSION : string := "1.1".

(** The [User-Agent] header of the request for the zone list. *)
Definition user_agent (platform : string) : string :=
  "insigniaDNS/" +:+ insigniaDNS_VERSION +:+ " (" +:+ get_platform platform +:+ ")".

(** The two notices the script may print after "Detected operating
    system": about binding port 53 as root, and about the firewall. *)
Inductive notice := Root_notice | Firewall_notice.

Definition platform_notice (platform : string) : option notice :=
  if bool_decide (get_platform platform ∈ ["linux"; "macOS"]) then Some Root_notice
  else if bool_decide (get_platform platform = "Windows") then Some Firewall_notice
  else None.

(** *** format_ip *)

(** [int(octets[i])] *)
Definition int_octet (octets : list string) (i : nat) : outcome Z :=
  match octets !! i with
  | None => Fails IndexError
  | Some o => match py_int o with
              | Some n => Returns n
              | None => Fails ValueError
              end
  end.

Definition dotted (n0 n1 n2 n3 : Z) : string :=
  format_03d n0 +:+ "." +:+ format_03d n1 +:+ "." +:+ format_03d n2
    +:+ "." +:+ format_03d n3.

Definition format_ip (address : string) : outcome string :=
  let octets := str_split "." address in
  match int_octet octets 0 with
  | Fails f => Fails f
  | Returns n0 =>
  match int_octet octets 1 with
  | Fails f => Fails f
  | Returns n1 =>
  match int_octet octets 2 with
  | Fails f => Fails f
  | Returns n2 =>
  match int_octet octets 3 with
  | Fails f => Fails f
  | Returns n3 => Returns (dotted n0 n1 n2 n3)
  end end end end.

(** *** get_ip *)

Inductive socket_call :=
| Connect (address : string) (port : Z)
| Getsockname
| Close.

(** A call on the probe socket: it is recorded, and returns or raises. *)
Definition socket_do {T} (call : socket_call) (r : result T)
  : prog (list socket_call) T :=
  fun calls => (r, calls ++ [call]).

(** The body of [get_ip] after the socket is made.  The bare [except]
    catches whatever the [try] block raises; [finally] closes the
    socket on both paths. *)
Definition get_ip : prog (list socket_call) string :=
  fun calls =>
    match (let* _ := socket_do (Connect "10.255.255.255" 1)
                       (connect "10.255.255.255" 1) in
           socket_do Getsockname getsockname) calls with
    | (Ok IP, calls) => (Ok IP, calls ++ [Close])
    | (Raise _, calls) => (Ok "127.0.0.1", calls ++ [Close])
    end.

(** *** Fetching and parsing the zone list *)

Definition quoted (s : string) : string :=
  String (ascii_of_nat 34) s +:+ String (ascii_of_nat 34) EmptyString.

(** One object of the text the workaround splices in. *)
Definition pointer_json (name value : string) : string :=
  "{" +:+ quoted "type" +:+ ":" +:+ quoted "p" +:+ ","
      +:+ quoted "name" +:+ ":" +:+ quoted name +:+ ","
      +:+ quoted "value" +:+ ":" +:+ quoted value +:+ "}".

(** The second argument of [replace]: five pointer entries, each after
    a comma, and the closing bracket. *)
Definition spliced : string :=
  "," +:+ pointer_json "macs.part.xboxlive.com" "macs.insig.uk" +:+
  "," +:+ pointer_json "as.part.xboxlive.com" "as.insig.uk" +:+
  "," +:+ pointer_json "tgs.part.xboxlive.com" "tgs.insig.uk" +:+
  "," +:+ pointer_json "xds.part.xboxlive.com" "xds.xboxlive.com" +:+
  "," +:+ pointer_json "insignia.part.live" "insignia.live" +:+ "]".

(** The lines this part of the script can print. *)
Inductive console_line :=
| Error_timeout
| Error_request (message : string)
| Error_invalid_response
| Info_loaded.

(** The module-level names this part of the script binds; [None] is a
    name not bound yet. *)
Record globals := {
  g_get_zones : option string;
  g_zones : option (list (gmap string string));
  g_ZONES : zones_dict;
  g_console : list console_line;
}.

Definition say (line : console_line) (g : globals) : globals :=
  {| g_get_zones := g_get_zones g; g_zones := g_zones g;
     g_ZONES := g_ZONES g; g_console := g_console g ++ [line] |}.

(** [try: get_zones = get(...)] with its two handlers. *)
Definition fetch (platform : string) (g : globals) : outcome unit * globals :=
  match get "https://insignia.live/dns_zones.json" (user_agent platform) with
  | Response text =>
      (Returns tt,
       {| g_get_zones := Some text; g_zones := g_zones g;
          g_ZONES := g_ZONES g; g_console := g_console g |})
  | Timeout => (Returns tt, say Error_timeout g)
  | RequestException message => (Fails (SystemExit 1), say (Error_request message) g)
  end.

(** [try: zone_text = get_zones.text.replace(...); zones = loads(zone_text)]
    with its handler for [ValueError]; reading a name that is not bound
    raises [NameError], which the handler does not catch. *)
Definition parse (g : globals) : outcome unit * globals :=
  match g_get_zones g with
  | None => (Fails (NameError "get_zones"), g)
  | Some text =>
      let zone_text := str_replace "]" spliced text in
      match loads zone_text with
      | Some zones =>
          (Returns tt,
           {| g_get_zones := g_get_zones g; g_zones := Some zones;
              g_ZONES := g_ZONES g; g_console := g_console g |})
      | None => (Returns tt, say Error_invalid_response g)
      end
  end.

(** [for zone in zones: ...] and the line printed after it. *)
Definition fill (g : globals) : outcome unit * globals :=
  match g_zones g with
  | None => (Fails (NameError "zones"), g)
  | Some zones =>
      match for_each zone_body zones (g_ZONES g) with
      | (Ok _, ZONES) =>
          (Returns tt,
           say Info_loaded
             {| g_get_zones := g_get_zones g; g_zones := g_zones g;
                g_ZONES := ZONES; g_console := g_console g |})
      | (Raise e, ZONES) =>
          (Fails (Uncaught e),
           {| g_get_zones := g_get_zones g; g_zones := g_zones g;
              g_ZONES := ZONES; g_console := g_console g |})
      end
  end.

(** [resolver = Resolver()] *)
Definition make_resolver (g : globals) : outcome Resolver * globals :=
  match Resolver_init (g_ZONES g) with
  | Ok R => (Returns R, g)
  | Raise e => (Fails (Uncaught e), g)
  end.

(** The script from [ZONES = {}] to [resolver = Resolver()]. *)
Definition script (platform : string) : outcome Resolver * globals :=
  let g := {| g_get_zones := None; g_zones := None; g_ZONES := []; g_console := [] |} in
  match fetch platform g with
  | (Fails f, g) => (Fails f, g)
  | (Returns _, g) =>
  match parse g with
  | (Fails f, g) => (Fails f, g)
  | (Returns _, g) =>
  match fill g with
  | (Fails f, g) => (Fails f, g)
  | (Returns _, g) => make_resolver g
  end end end.

End Script.

(** ** A run-time environment for concrete runs *)

Module RuntimeReference.
Import Reference.

(** A stand-in for [int] on the strings the examples use: it reads a
    non-empty string of decimal digits and refuses everything else. *)
Definition digits_int (s : string) : option Z :=
  match s with
  | EmptyString => None
  | _ => Z.of_N <$> Reference.digits s 0%N
  end.

(** The environment in which the request ends as [answer], the parser
    gives [parsed] for whatever text, and the probe socket behaves as
    [connected] and [sockname]. *)
Definition runtime_with (answer : get_result)
    (parsed : option (list (gmap string string)))
    (connected : result unit) (sockname : result string) : Runtime :=
  {| py_int := digits_int;
     get := fun _ _ => answer;
     loads := fun _ => parsed;
     connect := fun _ _ => connected;
     getsockname := sockname |}.

(** A machine on a network, whose request for the zone list is answered
    with a list that parses to one entry. *)
Definition online : Runtime :=
  runtime_with (Response "[]") (Some [Examples.entry "a" "example.com" "1.2.3.4"])
    (Ok tt) (Ok "192.168.1.10").

(** The same machine when the request times out. *)
Definition timing_out : Runtime :=
  runtime_with Timeout None (Ok tt) (Ok "192.168.1.10").

(** The same machine when the response is not JSON. *)
Definition garbled : Runtime :=
  runtime_with (Response "<html>") None (Ok tt) (Ok "192.168.1.10").

(** Two names that differ in case only, then another name. *)
Definition mixed_case : zones_dict :=
  [("Example.com", [address_record "1.1.1.1"]);
   ("other.net", [address_record "3.3.3.3"]);
   ("example.COM", [address_record "2.2.2.2"])].

(** What the resolver makes of them: one zone for the two spellings,
    under the first spelling, with the records of the second. *)
Definition merged : label_dict :=
  [(["Example"; "com"], [address_record "2.2.2.2"]);
   (["other"; "net"], [address_record "3.3.3.3"])].

(** A label in a third spelling. *)
Definition shouted : DNSLabel := ["EXAMPLE"; "COM"].

(** A good entry, an entry of type "a" without a value, and a good
    entry that is never reached. *)
Definition good_entry : gmap string string := Examples.entry "a" "x.com" "1.1.1.1".
Definition no_value : gmap string string := {[ "type" := "a"; "name" := "y.com" ]}.
Definition unreached : gmap string string := Examples.entry "a" "z.com" "3.3.3.3".

End RuntimeReference.

(** ** Properties of [Record] *)

Section RecordProperties.
Context {lib : DnsLib} {host : Host}.

Lemma result_bind_Ok {T U} (c : result T) (k : T -> result U) (u : U) :
  result_bind c k = Ok u -> exists v, c = Ok v /\ k v = Ok u.
Proof. destruct c as [v|e]; simpl; [eauto | discriminate]. Qed.

Lemma Record_init_inv rdata_type args rtype rname ttl rclass r :
  Record_init rdata_type args rtype rname ttl rclass = Ok r ->
  exists t rd,
    match rdata_type with
    | Instance_ rd' => TYPE_LOOKUP (rd_class rd') = Ok t /\ rd = rd'
    | Class_ cls =>
        TYPE_LOOKUP cls = Ok t /\
        rdata_new cls
          (if bool_decide (cls = SOA) && bool_decide (length args = 2%nat)
           then args ++ [soa_times] else args) = Ok rd
    end /\
    r = {| _rtype := effective_rtype rtype t;
           _rname := rname;
           kwargs := {| kw_rdata := rd;
                        kw_ttl := match ttl with
                                  | None => sensible_ttl (effective_rtype rtype t)
                                  | Some t' => t'
                                  end;
                        kw_rclass := rclass |} |}.
Proof.
  unfold Record_init. intros H.
  apply result_bind_Ok in H as ([t rd] & Hfirst & Hr).
  exists t, rd. split.
  - destruct rdata_type as [rd'|cls].
    + apply result_bind_Ok in Hfirst as (t' & Hl & Heq).
      injection Heq as <- <-. auto.
    + apply result_bind_Ok in Hfirst as (t' & Hl & Hrest).
      apply result_bind_Ok in Hrest as (rd' & Hnew & Heq).
      injection Heq as <- <-. auto.
  - injection Hr as <-. reflexivity.
Qed.

Lemma sensible_ttl_long rtype :
  rtype = QTYPE.NS \/ rtype = QTYPE.SOA -> sensible_ttl rtype = 86400.
Proof. intros [-> | ->]; reflexivity. Qed.

Lemma sensible_ttl_short rtype :
  rtype <> QTYPE.NS -> rtype <> QTYPE.SOA -> sensible_ttl rtype = 300.
Proof.
  intros Hns Hsoa. unfold sensible_ttl.
  rewrite !bool_decide_eq_false_2 by assumption. reflexivity.
Qed.

(** What [as_rr] does, by whether [RR(...)] takes the record. *)
Lemma as_rr_cases (r : RecordObj) alt_rname :
  (accepted r = true /\ as_rr r alt_rname = Ok (answer_of r alt_rname)) \/
  (accepted r = false /\
   exists attr, as_rr r alt_rname = Raise (ValueError_attr attr)).
Proof.
  unfold as_rr, RR_new, accepted, answer_of.
  destruct (fits 65535 (_rtype r)); simpl; [|right; eauto].
  destruct (fits 65535 (default 1 (kw_rclass (kwargs r)))); simpl; [|right; eauto].
  destruct (fits 4294967295 (kw_ttl (kwargs r))); simpl; [by left | right; eauto].
Qed.

Lemma as_rr_Ok (r : RecordObj) alt_rname answer :
  as_rr r alt_rname = Ok answer ->
  accepted r = true /\ answer = answer_of r alt_rname.
Proof.
  destruct (as_rr_cases r alt_rname) as [[Hacc Hrun] | [_ [attr Hrun]]];
    rewrite Hrun; [by intros [= <-] | discriminate].
Qed.

(** What [try_rr] does, by its test and by whether [RR(...)] takes the
    record. *)
Lemma try_rr_cases (r : RecordObj) question :
  (asked_for r question = false /\ try_rr r question = Ok None) \/
  (asked_for r question = true /\ accepted r = true /\
   try_rr r question = Ok (Some (answer_of r (qname question)))) \/
  (asked_for r question = true /\ accepted r = false /\
   exists attr, try_rr r question = Raise (ValueError_attr attr)).
Proof.
  unfold try_rr, asked_for.
  destruct (_ || _); [|by left].
  right.
  destruct (as_rr_cases r (qname question)) as [[Hacc ->] | [Hacc [attr ->]]];
    [left | right]; simpl; eauto.
Qed.

(** C4.  A record built without [ttl=] gets 86400 when its rtype is NS
    or SOA and 300 for any other rtype; a record built with [ttl=t]
    keeps [t], zero included.  The value is stored in the record at
    construction, and every RR later made from the record ([as_rr],
    [try_rr]) carries the stored value; one is made whenever the
    record's type, class and TTL are within what [RR(...)] takes. *)
Theorem Record_ttl rdata_type args rtype rname ttl rclass r :
  Record_init rdata_type args rtype rname ttl rclass = Ok r ->
  (ttl = None ->
     (_rtype r = QTYPE.NS \/ _rtype r = QTYPE.SOA -> kw_ttl (kwargs r) = 86400) /\
     (_rtype r <> QTYPE.NS -> _rtype r <> QTYPE.SOA -> kw_ttl (kwargs r) = 300)) /\
  (forall t, ttl = Some t -> kw_ttl (kwargs r) = t) /\
  (forall alt_rname answer,
     as_rr r alt_rname = Ok answer -> rr_ttl answer = kw_ttl (kwargs r)) /\
  (forall question answer,
     try_rr r question = Ok (Some answer) -> rr_ttl answer = kw_ttl (kwargs r)) /\
  (accepted r = true ->
   forall alt_rname,
     exists answer,
       as_rr r alt_rname = Ok answer /\ rr_ttl answer = kw_ttl (kwargs r)).
Proof.
  intros Hinit.
  assert (Hcarried : forall alt_rname answer,
            as_rr r alt_rname = Ok answer -> rr_ttl answer = kw_ttl (kwargs r)).
  { intros alt_rname answer Hrun. by apply as_rr_Ok in Hrun as [_ ->]. }
  apply Record_init_inv in Hinit as (t & rd & _ & Hr).
  split; [|split; [|split; [|split]]].
  - intros ->. rewrite Hr. simpl. split.
    + apply sensible_ttl_long.
    + apply sensible_ttl_short.
  - intros t' ->. by rewrite Hr.
  - exact Hcarried.
  - intros question answer. unfold try_rr.
    destruct (_ || _); [|discriminate].
    destruct (as_rr r (qname question)) as [a|e] eqn:Hrun; [|discriminate].
    simpl. intros [= <-]. by eapply Hcarried.
  - intros Hacc alt_rname.
    destruct (as_rr_cases r alt_rname) as [[_ Hrun] | [Hno _]]; [|congruence].
    exists (answer_of r alt_rname). split; [exact Hrun | reflexivity].
Qed.

(** C5.  When the library accepts the calls: [Record(SOA, mname, mbox)]
    stores the rdata [SOA(mname, mbox, (SERIAL, 3600, 10800, 86400,
    3600))], the five being serial, refresh, retry, expire and minimum
    in that order; [Record(SOA, mname, mbox, times)] stores
    [SOA(mname, mbox, times)] with [times] as given. *)
Theorem Record_soa_times mname mbox times rtype rname ttl rclass :
  rdata_check SOA
    [mname; mbox;
     PTuple [PInt SERIAL; PInt 3600; PInt 10800; PInt 86400; PInt 3600]] = None ->
  rdata_check SOA [mname; mbox; times] = None ->
  (exists r,
     Record_init (Class_ SOA) [mname; mbox] rtype rname ttl rclass = Ok r /\
     kw_rdata (kwargs r) =
       {| rd_class := SOA;
          rd_args := [mname; mbox;
                      PTuple [PInt SERIAL; PInt 3600; PInt 10800;
                              PInt 86400; PInt 3600]] |}) /\
  (exists r,
     Record_init (Class_ SOA) [mname; mbox; times] rtype rname ttl rclass = Ok r /\
     kw_rdata (kwargs r) =
       {| rd_class := SOA; rd_args := [mname; mbox; times] |}).
Proof.
  intros Hfilled Hgiven. split.
  - unfold Record_init, rdata_new. simpl.
    change soa_times
      with (PTuple [PInt SERIAL; PInt 3600; PInt 10800; PInt 86400; PInt 3600]).
    rewrite Hfilled. simpl. eexists. split; reflexivity.
  - unfold Record_init, rdata_new. simpl.
    rewrite Hgiven. simpl. eexists. split; reflexivity.
Qed.

End RecordProperties.

(** ** Properties of [Resolver.resolve] *)

Section ResolverProperties.
Context {lib : DnsLib} {host : Host}.

Lemma exact_loop_self question zone : forall reply w,
  self (exact_loop question zone reply w).2 = self w.
Proof.
  induction zone as [|r zone IH]; intros reply w; [reflexivity|].
  simpl. unfold bind, lift, print_match.
  destruct (try_rr r question) as [[a|]|e]; simpl; [|reflexivity..].
  by rewrite IH.
Qed.

Lemma exact_loop_console_blind question zone : forall reply w w',
  (exact_loop question zone reply w).1 = (exact_loop question zone reply w').1.
Proof.
  induction zone as [|r zone IH]; intros reply w w'; [reflexivity|].
  simpl. unfold bind, lift, print_match.
  destruct (try_rr r question) as [[a|]|e]; simpl; [|reflexivity..].
  apply IH.
Qed.

Lemma resolve_console_blind request w w' :
  self w = self w' -> (resolve request w).1 = (resolve request w').1.
Proof.
  intros Hself. unfold resolve, bind, gets. rewrite Hself.
  destruct (dict_get _ _ _); [apply exact_loop_console_blind | reflexivity].
Qed.

(** The exact-match loop, when every record answers the question and
    [RR(...)] takes it. *)
Lemma exact_loop_all_match question zone : forall reply w,
  Forall (fun r => asked_for r question = true /\ accepted r = true) zone ->
  exact_loop question zone reply w =
    (Ok {| q := q reply; rr := rr reply ++ matching_answers question zone |},
     {| self := self w;
        stdout := stdout w ++
                  map (fun r => DNS_Match (qname question) (kw_rdata (kwargs r)))
                      zone |}).
Proof.
  unfold matching_answers.
  induction zone as [|r zone IH]; intros reply w Hall.
  - simpl. rewrite !app_nil_r. by destruct reply, w.
  - apply Forall_cons in Hall as [[Hask Hacc] Hall].
    destruct (try_rr_cases r question)
      as [[Hno _] | [(_ & _ & Hrun) | (_ & Hno & _)]]; [congruence | | congruence].
    simpl. unfold bind, lift, print_match. rewrite Hrun. simpl.
    rewrite IH by assumption. simpl.
    by rewrite <- !app_assoc.
Qed.

(** The exact-match loop, at the first record that does not answer the
    question: formatting the log line raises. *)
Lemma exact_loop_mismatch question before r after reply w :
  Forall (fun r => asked_for r question = true /\ accepted r = true) before ->
  try_rr r question = Ok None ->
  (exact_loop question (before ++ r :: after) reply w).1 =
    Raise (AttributeError "rdata").
Proof.
  revert reply w.
  induction before as [|b before IH]; intros reply w Hall Hnone.
  - simpl. unfold bind, lift, print_match. by rewrite Hnone.
  - apply Forall_cons in Hall as [[Hask Hacc] Hall].
    destruct (try_rr_cases b question)
      as [[Hno _] | [(_ & _ & Hrun) | (_ & Hno & _)]]; [congruence | | congruence].
    simpl. unfold bind, lift, print_match. rewrite Hrun. simpl.
    by apply IH.
Qed.

(** The exact-match loop, at the first record that [RR(...)] refuses. *)
Lemma exact_loop_refused question before r after reply w e :
  Forall (fun r => asked_for r question = true /\ accepted r = true) before ->
  try_rr r question = Raise e ->
  (exact_loop question (before ++ r :: after) reply w).1 = Raise e.
Proof.
  revert reply w.
  induction before as [|b before IH]; intros reply w Hall Hraise.
  - simpl. unfold bind, lift, print_match. by rewrite Hraise.
  - apply Forall_cons in Hall as [[Hask Hacc] Hall].
    destruct (try_rr_cases b question)
      as [[Hno _] | [(_ & _ & Hrun) | (_ & Hno & _)]]; [congruence | | congruence].
    simpl. unfold bind, lift, print_match. rewrite Hrun. simpl.
    by apply IH.
Qed.

Lemma try_rr_None_iff (r : RecordObj) question :
  try_rr r question = Ok None <-> asked_for r question = false.
Proof.
  destruct (try_rr_cases r question)
    as [[Hno Hrun] | [(Hyes & _ & Hrun) | (Hyes & _ & attr & Hrun)]];
    rewrite Hrun; split; congruence.
Qed.

Lemma find_is_soa_none (zone_records : list RecordObj) :
  Forall (fun r => is_soa r = false) zone_records ->
  List.find is_soa zone_records = None.
Proof.
  induction 1 as [|r rs Hr _ IH]; [reflexivity|].
  simpl. by rewrite Hr.
Qed.

Lemma fallback_loop_passed_over name skipped : forall later reply,
  Forall (passed_over name) skipped ->
  fallback_loop name (skipped ++ later) reply = fallback_loop name later reply.
Proof.
  induction skipped as [|[k recs] skipped IH]; intros later reply Hall;
    [reflexivity|].
  apply Forall_cons in Hall as [Hz Hall]. simpl.
  destruct Hz as [Hno | Hno]; simpl in Hno.
  - rewrite Hno. by apply IH.
  - rewrite (find_is_soa_none _ Hno).
    destruct (matchSuffix name k); by apply IH.
Qed.

Lemma resolve_self request w : self (resolve request w).2 = self w.
Proof.
  unfold resolve, bind, gets.
  destruct (dict_get _ _ _); [apply exact_loop_self | reflexivity].
Qed.

(** C1.  Where the claim says "returns an empty answer sequence", the
    code raises.  When the queried name has a zone of its own and no
    record of the zone answers the query type: with an empty record
    list [resolve] returns an empty reply; with any record in the list
    it raises [AttributeError] at the first one, while formatting the
    log line, and leaves the state as it was. *)
Theorem resolve_no_match_raises request w zone :
  dict_get label_eqb (zones (self w)) (qname (q request)) = Some zone ->
  Forall (fun r => try_rr r (q request) = Ok None) zone ->
  (zone = [] ->
   resolve request w = (Ok {| q := q request; rr := [] |}, w)) /\
  (zone <> [] ->
   resolve request w = (Raise (AttributeError "rdata"), w)).
Proof.
  intros Hzone Hnone. unfold resolve, bind, gets. rewrite Hzone.
  split.
  - intros ->. reflexivity.
  - intros Hne. destruct zone as [|r rest]; [contradiction|].
    apply Forall_cons in Hnone as [Hr _].
    simpl. unfold bind, lift, print_match. by rewrite Hr.
Qed.

(** C2.  Where the claim says "appends exactly those records whose
    kind equals the qtype", the code raises.  When the queried name has
    a zone of its own, the records are tried in stored order.  If every
    record answers the query type (as with ANY) and [RR(...)] takes
    each, the reply carries one answer per record, in stored order,
    each owned by the record's rname override or else the queried
    name, and each is logged.  At the first record that does not answer
    the query type [resolve] raises [AttributeError] and returns no
    reply; at the first record that answers it and that [RR(...)]
    refuses, it raises the [ValueError] of [RR(...)]. *)
Theorem resolve_partial_match_raises request w zone :
  dict_get label_eqb (zones (self w)) (qname (q request)) = Some zone ->
  (Forall (fun r => asked_for r (q request) = true /\ accepted r = true) zone ->
   resolve request w =
     (Ok {| q := q request;
            rr := map (fun r => answer_of r (qname (q request))) zone |},
      {| self := self w;
         stdout := stdout w ++
                   map (fun r => DNS_Match (qname (q request)) (kw_rdata (kwargs r)))
                       zone |})) /\
  (forall before r after,
     zone = before ++ r :: after ->
     Forall (fun r => asked_for r (q request) = true /\ accepted r = true) before ->
     (asked_for r (q request) = false ->
      (resolve request w).1 = Raise (AttributeError "rdata")) /\
     (asked_for r (q request) = true -> accepted r = false ->
      exists attr, (resolve request w).1 = Raise (ValueError_attr attr))).
Proof.
  intros Hzone. unfold resolve, bind, gets. rewrite Hzone. split.
  - intros Hall. by rewrite exact_loop_all_match by assumption.
  - intros before r after -> Hall. split.
    + intros Hno. apply exact_loop_mismatch; [assumption|].
      by apply try_rr_None_iff.
    + intros Hyes Hacc.
      destruct (try_rr_cases r (q request))
        as [[Hno _] | [(_ & Hok & _) | (_ & _ & attr & Hrun)]];
        [congruence | congruence |].
      exists attr. by apply exact_loop_refused.
Qed.

(** C8.  Whatever the request, and whether [resolve] returns or
    raises, the resolver object it leaves behind is the one it
    started with: the same zones in the same order, each with the
    same records. *)
Theorem resolve_leaves_zones request w :
  self (resolve request w).2 = self w /\
  zones (self (resolve request w).2) = zones (self w).
Proof. by rewrite resolve_self. Qed.

(** C9.  Resolving a request, and then resolving the same request
    again in the state the first call left, gives the same outcome
    both times: the same reply with the same answers in the same
    order, or the same exception. *)
Theorem resolve_twice request w :
  (resolve request (resolve request w).2).1 = (resolve request w).1.
Proof. apply resolve_console_blind, resolve_self. Qed.


End ResolverProperties.

(** ** Properties of the zone loop *)

Section ZoneProperties.
Context {lib : DnsLib} {host : Host}.

Lemma keys_dict_set (k : string) (v : list RecordObj) (d : zones_dict) :
  (dict_set str_eqb k v d).*1 =
    if bool_decide (k ∈ d.*1) then d.*1 else d.*1 ++ [k].
Proof.
  induction d as [|[k' v'] d IH]; [reflexivity|].
  cbn [dict_set]. unfold str_eqb at 1. rewrite !fmap_cons. cbn [fst].
  destruct (decide (k' = k)) as [-> | Hne].
  - rewrite !bool_decide_eq_true_2; [reflexivity | by left | reflexivity].
  - rewrite (bool_decide_eq_false_2 (k' = k)) by assumption.
    rewrite fmap_cons, IH. cbn [fst].
    destruct (decide (k ∈ d.*1)) as [Hin | Hout].
    + rewrite !bool_decide_eq_true_2; [reflexivity | by right | assumption].
    + rewrite !bool_decide_eq_false_2; [reflexivity | | assumption].
      intros [Heq | Hin]%elem_of_cons; [by subst | contradiction].
Qed.

Lemma dict_get_dict_set (k k' : string) (v : list RecordObj) (d : zones_dict) :
  dict_get str_eqb (dict_set str_eqb k v d) k' =
    if bool_decide (k = k') then Some v else dict_get str_eqb d k'.
Proof.
  unfold str_eqb.
  induction d as [|[k0 v0] d IH]; [reflexivity|].
  cbn [dict_set].
  destruct (decide (k0 = k)) as [-> | Hne].
  - rewrite (bool_decide_eq_true_2 (k = k)) by reflexivity.
    cbn [dict_get]. by destruct (bool_decide (k = k')).
  - rewrite (bool_decide_eq_false_2 (k0 = k)) by assumption.
    cbn [dict_get]. rewrite IH.
    destruct (decide (k0 = k')) as [-> | Hne'].
    + rewrite (bool_decide_eq_true_2 (k' = k')) by reflexivity.
      by rewrite bool_decide_eq_false_2 by congruence.
    + by rewrite (bool_decide_eq_false_2 (k0 = k')) by assumption.
Qed.

Lemma first_occurrences_ext names : forall seen seen',
  (forall x, x ∈ seen <-> x ∈ seen') ->
  first_occurrences seen names = first_occurrences seen' names.
Proof.
  induction names as [|n names IH]; intros seen seen' Hsame; [reflexivity|].
  simpl. rewrite (bool_decide_ext _ _ (Hsame n)).
  destruct (bool_decide (n ∈ seen')); [by apply IH|].
  f_equal. apply IH. intros x. rewrite !elem_of_cons, Hsame. reflexivity.
Qed.

Lemma keys_put_all keyed : forall ZONES : zones_dict,
  (fold_left put_address keyed ZONES).*1 =
    ZONES.*1 ++ first_occurrences ZONES.*1 keyed.*1.
Proof.
  induction keyed as [|[n a] keyed IH]; intros ZONES; simpl.
  - by rewrite app_nil_r.
  - rewrite IH. unfold put_address at 1 2. simpl. rewrite keys_dict_set.
    destruct (bool_decide (n ∈ ZONES.*1)) eqn:Hin; [reflexivity|].
    rewrite <- app_assoc. simpl. do 2 f_equal.
    apply first_occurrences_ext. intros x.
    rewrite elem_of_app, !elem_of_cons, elem_of_nil. tauto.
Qed.

Lemma get_put_all keyed name : forall ZONES : zones_dict,
  dict_get str_eqb (fold_left put_address keyed ZONES) name =
    match last_address name keyed with
    | Some a => Some [address_record a]
    | None => dict_get str_eqb ZONES name
    end.
Proof.
  induction keyed as [|[n a] keyed IH]; intros ZONES; simpl; [reflexivity|].
  rewrite IH. destruct (last_address name keyed); [reflexivity|].
  unfold put_address. simpl. rewrite dict_get_dict_set.
  by destruct (bool_decide (n = name)).
Qed.

Lemma Record_init_address addr :
  rdata_check A [PStr addr] = None ->
  Record_init (Class_ A) [PStr addr] None None None None = Ok (address_record addr).
Proof.
  intros Hok. unfold Record_init, rdata_new. simpl. by rewrite Hok.
Qed.

Lemma zone_body_well_formed zone name addr (ZONES : zones_dict) :
  well_formed zone name addr ->
  zone_body zone ZONES = (Ok tt, put_address ZONES (name, addr)).
Proof.
  intros (Hname & Hkind & Hlib).
  unfold zone_body, bind, lift, getitem, modify.
  destruct Hkind as [[Hty Hval] | (Hty & target & Hval & Hhost)]; rewrite Hty.
  - simpl. rewrite Hval, (Record_init_address _ Hlib), Hname. reflexivity.
  - simpl. rewrite Hval, Hhost, (Record_init_address _ Hlib), Hname. reflexivity.
Qed.

Lemma for_each_well_formed entries keyed :
  Forall2 (fun zone na => well_formed zone na.1 na.2) entries keyed ->
  forall ZONES : zones_dict,
    for_each zone_body entries ZONES = (Ok tt, fold_left put_address keyed ZONES).
Proof.
  induction 1 as [|zone [n a] entries keyed Hwf _ IH]; intros ZONES;
    [reflexivity|].
  simpl. unfold bind. rewrite (zone_body_well_formed _ _ _ _ Hwf). apply IH.
Qed.

Lemma dict_set_Forall {K} (eqb : K -> K -> bool) (P : list RecordObj -> Prop)
    k v (d : list (K * list RecordObj)) :
  P v -> Forall (fun z => P z.2) d -> Forall (fun z => P z.2) (dict_set eqb k v d).
Proof.
  intros Hv. induction 1 as [|[k' v'] d Hz Hd IH]; simpl.
  - by constructor.
  - destruct (eqb k' k); constructor; auto.
Qed.

Lemma Record_init_A_kind args r :
  Record_init (Class_ A) args None None None None = Ok r -> single_A [r].
Proof.
  intros Hinit. exists r. split; [reflexivity|].
  apply Record_init_inv in Hinit as (t & rd & [Hlook _] & ->).
  simpl in *. congruence.
Qed.

Lemma zone_body_single_A zone (ZONES : zones_dict) :
  Forall (fun z => single_A z.2) ZONES ->
  Forall (fun z => single_A z.2) (zone_body zone ZONES).2.
Proof.
  intros Hinv. unfold zone_body, bind, lift, modify, ret, getitem.
  destruct (zone !! "type") as [ty|]; [|assumption].
  destruct (bool_decide (ty = "a")).
  - destruct (zone !! "value") as [value|]; [|assumption].
    destruct (Record_init _ _ _ _ _ _) as [r|e] eqn:Hinit; [|assumption].
    destruct (zone !! "name") as [name|]; [|assumption].
    simpl. apply dict_set_Forall; [|assumption].
    by eapply Record_init_A_kind.
  - destruct (bool_decide (ty = "p")); [|assumption].
    destruct (zone !! "value") as [value|]; [|assumption].
    destruct (gethostbyname value) as [ip|e]; [|assumption].
    destruct (Record_init _ _ _ _ _ _) as [r|e] eqn:Hinit; [|assumption].
    destruct (zone !! "name") as [name|]; [|assumption].
    simpl. apply dict_set_Forall; [|assumption].
    by eapply Record_init_A_kind.
Qed.

Lemma for_each_single_A entries : forall ZONES : zones_dict,
  Forall (fun z => single_A z.2) ZONES ->
  Forall (fun z => single_A z.2) (for_each zone_body entries ZONES).2.
Proof.
  induction entries as [|zone entries IH]; intros ZONES Hinv; [assumption|].
  simpl. unfold bind.
  pose proof (zone_body_single_A zone ZONES Hinv) as Hstep.
  destruct (zone_body zone ZONES) as [[[]|e] ZONES']; simpl in *;
    [by apply IH | assumption].
Qed.

Lemma relabel_single_A items : forall acc zs,
  relabel items acc = Ok zs ->
  Forall (fun z => single_A z.2) items ->
  Forall (fun z => single_A z.2) acc ->
  Forall (fun z => single_A z.2) zs.
Proof.
  induction items as [|[k v] items IH]; intros acc zs Hrun Hitems Hacc; simpl in Hrun.
  - by injection Hrun as <-.
  - apply Forall_cons in Hitems as [Hv Hitems].
    destruct (DNSLabel_new k) as [l|e]; [|discriminate]. simpl in Hrun.
    eapply IH; [exact Hrun | assumption |].
    by apply dict_set_Forall.
Qed.

Lemma single_A_passed_over name (z : DNSLabel * list RecordObj) :
  single_A z.2 -> passed_over name z.
Proof.
  intros (r & Hz & Hkind). right. rewrite Hz.
  constructor; [|constructor].
  unfold is_soa. rewrite Hkind. reflexivity.
Qed.

Lemma zone_body_lacks_key zone (ZONES : zones_dict) :
  lacks_key zone -> exists e, zone_body zone ZONES = (Raise e, ZONES).
Proof.
  unfold zone_body, bind, lift, modify, ret, getitem.
  intros [Hty | [Hty Hmiss]].
  - rewrite Hty. eauto.
  - destruct Hty as [Hty | Hty]; rewrite Hty; simpl.
    + destruct (zone !! "value") as [value|]; [|eauto].
      destruct (Record_init _ _ _ _ _ _) as [r|e]; [|eauto].
      destruct Hmiss as [Hname | Hval]; [rewrite Hname; eauto | discriminate].
    + destruct (zone !! "value") as [value|]; [|eauto].
      destruct (gethostbyname value) as [ip|e]; [|eauto].
      destruct (Record_init _ _ _ _ _ _) as [r|e]; [|eauto].
      destruct Hmiss as [Hname | Hval]; [rewrite Hname; eauto | discriminate].
Qed.

Lemma for_each_lacks_key entries :
  Exists lacks_key entries ->
  forall ZONES : zones_dict,
    exists e ZONES', for_each zone_body entries ZONES = (Raise e, ZONES').
Proof.
  induction 1 as [zone entries Hbad | zone entries _ IH]; intros ZONES;
    simpl; unfold bind.
  - destruct (zone_body_lacks_key zone ZONES Hbad) as [e ->]. eauto.
  - destruct (zone_body zone ZONES) as [[[]|e] ZONES']; [apply IH | eauto].
Qed.

Lemma zone_body_unhandled zone (ZONES : zones_dict) :
  unhandled_type zone -> zone_body zone ZONES = (Ok tt, ZONES).
Proof.
  intros (ty & Hty & Ha & Hp).
  unfold zone_body, bind, lift, getitem. rewrite Hty.
  rewrite (bool_decide_eq_false_2 (ty = "a")) by assumption.
  rewrite (bool_decide_eq_false_2 (ty = "p")) by assumption.
  reflexivity.
Qed.

(** C6, as amended.  For well-formed entries the loop runs to its end.
    Each entry sets the bucket of its name to a list of one A record
    made from its address: a name not seen before gets a new bucket
    after the existing ones, a name seen before has the contents of
    its bucket replaced where it stands.  So the buckets come in the
    order in which their names first appear, and each holds the
    record of the last entry for its name. *)
Theorem load_zones_well_formed entries keyed :
  Forall2 (fun zone na => well_formed zone na.1 na.2) entries keyed ->
  exists ZONES,
    load_zones entries = (Ok tt, ZONES) /\
    ZONES.*1 = first_occurrences [] keyed.*1 /\
    (forall name,
       dict_get str_eqb ZONES name =
         (fun addr => [address_record addr]) <$> last_address name keyed).
Proof.
  intros Hwf. exists (fold_left put_address keyed []).
  split; [|split].
  - unfold load_zones. by apply for_each_well_formed.
  - by rewrite keys_put_all.
  - intros name. rewrite get_put_all.
    by destruct (last_address name keyed).
Qed.

(** C7, as amended.  If some entry has no type, or has type "a" or
    "p" and no name or no value, start-up raises and no resolver is
    made.  An entry of any other type is stepped over: the loop body
    returns and leaves [ZONES] as it was. *)
Theorem startup_lacking_key entries :
  (Exists lacks_key entries -> exists e, startup entries = Raise e) /\
  (forall zone ZONES,
     unhandled_type zone -> zone_body zone ZONES = (Ok tt, ZONES)).
Proof.
  split.
  - intros Hbad. unfold startup, load_zones.
    destruct (for_each_lacks_key entries Hbad []) as (e & ZONES' & ->).
    eauto.
  - intros zone ZONES. apply zone_body_unhandled.
Qed.

(** C10.  Whatever the loop leaves in [ZONES], every bucket holds
    exactly one record and its rtype is A.  The same holds for the
    zones of the resolver made from it, and there a request whose
    name has no entry of its own is answered with an empty reply. *)
Theorem load_zones_single_A entries :
  Forall (fun z => single_A z.2) (load_zones entries).2 /\
  (forall R,
     startup entries = Ok R ->
     Forall (fun z => single_A z.2) (zones R) /\
     (forall request w,
        self w = R ->
        dict_get label_eqb (zones R) (qname (q request)) = None ->
        resolve request w = (Ok {| q := q request; rr := [] |}, w))).
Proof.
  assert (Hloop : Forall (fun z => single_A z.2) (load_zones entries).2).
  { unfold load_zones. apply for_each_single_A. constructor. }
  split; [exact Hloop|].
  intros R Hstart. unfold startup in Hstart.
  destruct (load_zones entries) as [[[]|e] ZONES]; [|discriminate].
  simpl in Hloop. unfold Resolver_init in Hstart.
  destruct (relabel ZONES []) as [zs|e] eqn:Hrelabel; [|discriminate].
  simpl in Hstart. injection Hstart as <-. simpl.
  assert (Hzs : Forall (fun z => single_A z.2) zs).
  { eapply relabel_single_A; [exact Hrelabel | assumption | constructor]. }
  split; [exact Hzs|].
  intros request w Hself Hmiss.
  unfold resolve, bind, gets. rewrite Hself. simpl. rewrite Hmiss.
  rewrite <- (app_nil_r zs), fallback_loop_passed_over; [reflexivity|].
  eapply Forall_impl; [exact Hzs|].
  intros z. apply single_A_passed_over.
Qed.

End ZoneProperties.

(** ** The program on concrete tables *)

Module Cases.
Import Reference Examples.

Example startup_one_entry : startup one_entry = Ok {| zones := one_zone |}.
Proof. reflexivity. Qed.

Example renamed_soa_built :
  Record_init (Class_ SOA) [PStr "ns.com"; PStr "admin.com"] None
    (Some ["hidden"; "example"; "org"]) None None = Ok renamed_soa.
Proof. reflexivity. Qed.

(** C1, witness: the table made from one "a" entry for [example.com]
    and a request for [example.com] of type MX; the same request on a
    zone without records. *)
Lemma resolve_no_match_raises_witness :
  startup one_entry = Ok (self (serving one_zone)) /\
  resolve (request "example.com" QTYPE.MX) (serving one_zone)
    = (Raise (AttributeError "rdata"), serving one_zone) /\
  resolve (request "example.com" QTYPE.MX) (serving empty_zone)
    = (Ok {| q := q (request "example.com" QTYPE.MX); rr := [] |},
       serving empty_zone).
Proof.
  split; [reflexivity|]. split.
  - apply (resolve_no_match_raises (request "example.com" QTYPE.MX)
             (serving one_zone) [address_record "1.2.3.4"]).
    + reflexivity.
    + constructor; [reflexivity | constructor].
    + discriminate.
  - apply (resolve_no_match_raises (request "example.com" QTYPE.MX)
             (serving empty_zone) []).
    + reflexivity.
    + constructor.
    + reflexivity.
Defined.

(** C2, witness: the table made from one "a" entry for [example.com].
    A request of type ANY returns its record; a request of type AAAA
    raises at it.  On a table made by hand, a record with a negative
    TTL makes a request of its own type raise the [ValueError] of
    [RR(...)]. *)
Lemma resolve_partial_match_raises_witness :
  startup one_entry = Ok (self (serving one_zone)) /\
  (resolve (request "example.com" QTYPE.ANY) (serving one_zone)).1
    = Ok {| q := q (request "example.com" QTYPE.ANY);
            rr := [ {| rr_rname := ["example"; "com"];
                       rr_rtype := QTYPE.A;
                       rr_rclass := 1;
                       rr_ttl := 300;
                       rr_rdata := {| rd_class := A; rd_args := [PStr "1.2.3.4"] |} |} ] |} /\
  (resolve (request "example.com" QTYPE.AAAA) (serving one_zone)).1
    = Raise (AttributeError "rdata") /\
  (exists attr,
     (resolve (request "example.com" QTYPE.A) (serving negative_ttl)).1
       = Raise (ValueError_attr attr)).
Proof.
  split; [reflexivity|]. split; [|split].
  - rewrite (proj1 (resolve_partial_match_raises
                      (request "example.com" QTYPE.ANY) (serving one_zone)
                      [address_record "1.2.3.4"] eq_refl)).
    + reflexivity.
    + repeat constructor.
  - apply (proj2 (resolve_partial_match_raises
                    (request "example.com" QTYPE.AAAA) (serving one_zone)
                    [address_record "1.2.3.4"] eq_refl)
             [] (address_record "1.2.3.4") []).
    + reflexivity.
    + constructor.
    + reflexivity.
  - apply (proj2 (resolve_partial_match_raises
                    (request "example.com" QTYPE.A) (serving negative_ttl)
                    [negative_ttl_record] eq_refl)
             [] negative_ttl_record []).
    + reflexivity.
    + constructor.
    + reflexivity.
    + reflexivity.
Defined.

(** A name written with its trailing dot is the same label. *)
Example trailing_dot_ignored :
  label_of_string "example.com." = label_of_string "example.com" /\
  label_of_string "example.com." = ["example"; "com"] /\
  label_of_string "." = [].
Proof. repeat split. Qed.

Example renamed_resolver_built :
  Resolver_init [("com", [renamed_soa])] = Ok {| zones := renamed |}.
Proof. reflexivity. Qed.



(** C4, witness: an NS record and an A record without [ttl=], and an A
    record with [ttl=0] together with the answer made from it. *)
Lemma Record_ttl_witness :
  kw_ttl (kwargs ns_record) = 86400 /\
  kw_ttl (kwargs (address_record "1.2.3.4")) = 300 /\
  kw_ttl (kwargs zero_ttl_record) = 0 /\
  (forall answer,
     try_rr zero_ttl_record {| qname := ["example"; "com"]; qtype := QTYPE.ANY |}
       = Ok (Some answer) ->
     rr_ttl answer = 0) /\
  (exists answer,
     as_rr zero_ttl_record ["example"; "com"] = Ok answer /\ rr_ttl answer = 0).
Proof.
  split; [|split; [|split; [|split]]].
  - destruct (Record_ttl (Class_ NS) [PStr "ns1.example.com"]
                None None None None ns_record eq_refl) as (Hdefault & _).
    apply (Hdefault eq_refl). left. reflexivity.
  - assert (Hbuilt : Record_init (Class_ A) [PStr "1.2.3.4"] None None None None
                     = Ok (address_record "1.2.3.4")) by reflexivity.
    destruct (Record_ttl _ _ _ _ _ _ _ Hbuilt) as (Hdefault & _).
    apply (Hdefault eq_refl); discriminate.
  - destruct (Record_ttl (Class_ A) [PStr "1.2.3.4"]
                None None (Some 0) None zero_ttl_record eq_refl)
      as (_ & Hexplicit & _).
    apply Hexplicit. reflexivity.
  - intros answer Hanswer.
    destruct (Record_ttl (Class_ A) [PStr "1.2.3.4"]
                None None (Some 0) None zero_ttl_record eq_refl)
      as (_ & _ & _ & Hcarried & _).
    apply (Hcarried _ _ Hanswer).
  - destruct (Record_ttl (Class_ A) [PStr "1.2.3.4"]
                None None (Some 0) None zero_ttl_record eq_refl)
      as (_ & _ & _ & _ & Hmade).
    apply (Hmade eq_refl).
Defined.

(** C5, witness: an SOA record for [ns.com] and [admin.com], without
    and with times of its own. *)
Lemma Record_soa_times_witness :
  (exists r,
     Record_init (Class_ SOA) [PStr "ns.com"; PStr "admin.com"]
       None None None None = Ok r /\
     kw_rdata (kwargs r) = soa_rdata) /\
  (exists r,
     Record_init (Class_ SOA)
       [PStr "ns.com"; PStr "admin.com";
        PTuple [PInt 7; PInt 1; PInt 2; PInt 3; PInt 4]]
       None None None None = Ok r /\
     kw_rdata (kwargs r) =
       {| rd_class := SOA;
          rd_args := [PStr "ns.com"; PStr "admin.com";
                      PTuple [PInt 7; PInt 1; PInt 2; PInt 3; PInt 4]] |}).
Proof.
  exact (Record_soa_times (PStr "ns.com") (PStr "admin.com")
           (PTuple [PInt 7; PInt 1; PInt 2; PInt 3; PInt 4])
           None None None None eq_refl eq_refl).
Defined.

Lemma repeated_name_well_formed :
  Forall2 (fun zone na => well_formed zone na.1 na.2)
    repeated_name repeated_name_keyed.
Proof.
  constructor; [address_entry|].
  constructor; [pointer_entry "insignia.live"|].
  constructor; [address_entry|]. constructor.
Qed.

(** C6, counterexample.  Two entries name [x.com].  The loop ends with
    one record in the bucket of [x.com], the second entry's; appending
    would have left two. *)
Lemma append_counterexample : ~ append_claim repeated_name repeated_name_keyed.
Proof.
  intros Hclaim. specialize (Hclaim repeated_name_well_formed).
  discriminate Hclaim.
Qed.

(** C6, witness: the same three entries. *)
Lemma load_zones_well_formed_witness :
  exists ZONES,
    load_zones repeated_name = (Ok tt, ZONES) /\
    ZONES.*1 = ["x.com"; "y.com"] /\
    (forall name,
       dict_get str_eqb ZONES name =
         (fun addr => [address_record addr])
           <$> last_address name repeated_name_keyed).
Proof.
  apply (load_zones_well_formed repeated_name repeated_name_keyed).
  constructor; [address_entry|].
  constructor; [pointer_entry "insignia.live"|].
  constructor; [address_entry|]. constructor.
Defined.

(** C7, counterexample.  The second entry has type "txt".  Start-up
    returns a resolver that serves the first entry only. *)
Lemma malformed_fails_counterexample : ~ malformed_fails_claim unknown_type.
Proof.
  intros Hclaim. destruct Hclaim as [e He].
  - apply Exists_cons_tl, Exists_cons_hd. do 3 right.
    exists "txt". repeat split; discriminate.
  - discriminate He.
Qed.

(** C7, witness: an entry without a value stops start-up; an entry of
    type "txt" is stepped over. *)
Lemma startup_lacking_key_witness :
  (exists e, startup missing_value = Raise e) /\
  zone_body (entry "txt" "y.com" "hello") [] = (Ok tt, []).
Proof.
  split.
  - apply (proj1 (startup_lacking_key missing_value)).
    apply Exists_cons_tl, Exists_cons_hd. right.
    split; [left; reflexivity | right; reflexivity].
  - apply (proj2 (startup_lacking_key [])).
    exists "txt". repeat split; discriminate.
Defined.

(** C10, witness: the table of one entry, and a request for a name
    under it. *)
Lemma load_zones_single_A_witness :
  Forall (fun z => single_A z.2) (load_zones one_entry).2 /\
  resolve (request "www.example.com" QTYPE.A) (serving one_zone)
    = (Ok {| q := q (request "www.example.com" QTYPE.A); rr := [] |},
       serving one_zone).
Proof.
  destruct (load_zones_single_A one_entry) as [Hbuckets Hserve].
  split; [exact Hbuckets|].
  destruct (Hserve {| zones := one_zone |} eq_refl) as [_ Hempty].
  apply Hempty; reflexivity.
Defined.

End Cases.

(** ** Further properties of [Record] *)

Section MoreRecordProperties.
Context {lib : DnsLib} {host : Host}.

(** X20.  How [Record(...)] fails.  For an rdata class that
    [TYPE_LOOKUP] does not list, or an instance of one, it raises
    [KeyError] whatever the arguments and keywords: an explicit
    [rtype=] does not spare the lookup.  An instance of a listed class
    is always accepted and kept as it is.  Whether construction
    succeeds never depends on [rtype=], [rname=], [ttl=] or the class
    keyword. *)
Theorem Record_init_failures args rtype rname ttl rclass :
  (forall name rd,
     Record_init (Class_ (OtherRD name)) args rtype rname ttl rclass
       = Raise (KeyError name) /\
     (rd_class rd = OtherRD name ->
      Record_init (Instance_ rd) args rtype rname ttl rclass = Raise (KeyError name))) /\
  (forall rd,
     (forall name, rd_class rd <> OtherRD name) ->
     exists r, Record_init (Instance_ rd) args rtype rname ttl rclass = Ok r /\
               kw_rdata (kwargs r) = rd) /\
  (forall rdata_type,
     (exists r, Record_init rdata_type args rtype rname ttl rclass = Ok r) <->
     (exists r, Record_init rdata_type args None None None None = Ok r)).
Proof.
  split; [|split].
  - intros name rd. split; [reflexivity|].
    intros Hcls. unfold Record_init. rewrite Hcls. reflexivity.
  - intros rd Hknown. unfold Record_init.
    destruct (rd_class rd) eqn:Hcls; simpl; try (eexists; split; reflexivity).
    exfalso. by eapply Hknown.
  - intros rdata_type. unfold Record_init.
    destruct rdata_type as [rd|cls].
    + destruct (TYPE_LOOKUP (rd_class rd)); simpl; split; eauto;
        intros [r Hr]; discriminate.
    + destruct (TYPE_LOOKUP cls); simpl;
        [|split; intros [r Hr]; discriminate].
      destruct (rdata_new cls _); simpl; split; eauto;
        intros [r Hr]; discriminate.
Qed.

End MoreRecordProperties.

(** ** Further properties of [Resolver.resolve] *)

Section MoreResolverProperties.
Context {lib : DnsLib} {host : Host}.


(** The fallback scan either passes over every zone or stops at a
    first zone with an SOA record. *)
Lemma passed_over_or_first_authority name (items : label_dict) :
  Forall (passed_over name) items \/
  exists skipped zone_label zone_records later soa_record,
    items = skipped ++ (zone_label, zone_records) :: later /\
    Forall (passed_over name) skipped /\
    matchSuffix name zone_label = true /\
    List.find is_soa zone_records = Some soa_record.
Proof.
  induction items as [|[k recs] items IH]; [left; constructor|].
  destruct (matchSuffix name k) eqn:Hsuf;
    [destruct (List.find is_soa recs) as [soa|] eqn:Hfind|].
  - right. exists [], k, recs, items, soa. repeat split; [constructor | assumption..].
  - assert (Hz : passed_over name (k, recs)).
    { right. apply Forall_forall. intros r Hr.
      apply list_elem_of_In in Hr.
      exact (find_none _ _ Hfind r Hr). }
    destruct IH as [Hall | (skipped & k' & recs' & later & soa & -> & Hskip & Hrest)].
    + left. by constructor.
    + right. exists ((k, recs) :: skipped), k', recs', later, soa.
      split; [reflexivity|]. split; [by constructor | assumption].
  - assert (Hz : passed_over name (k, recs)) by (by left).
    destruct IH as [Hall | (skipped & k' & recs' & later & soa & -> & Hskip & Hrest)].
    + left. by constructor.
    + right. exists ((k, recs) :: skipped), k', recs', later, soa.
      split; [reflexivity|]. split; [by constructor | assumption].
Qed.

Lemma fallback_loop_stops name skipped zone_label zone_records later soa_record reply :
  Forall (passed_over name) skipped ->
  matchSuffix name zone_label = true ->
  List.find is_soa zone_records = Some soa_record ->
  fallback_loop name (skipped ++ (zone_label, zone_records) :: later) reply =
    let? answer := as_rr soa_record zone_label in Ok (add_answer reply answer).
Proof.
  intros Hskip Hsuf Hfind.
  rewrite fallback_loop_passed_over by assumption.
  simpl. by rewrite Hsuf, Hfind.
Qed.

Lemma fallback_loop_none name items reply :
  Forall (passed_over name) items -> fallback_loop name items reply = Ok reply.
Proof.
  intros Hall. rewrite <- (app_nil_r items).
  by rewrite fallback_loop_passed_over.
Qed.





Lemma fallback_loop_reply name items : forall reply,
  fallback_loop name items reply =
    match fallback_answers name items with
    | Ok answers => Ok {| q := q reply; rr := rr reply ++ answers |}
    | Raise e => Raise e
    end.
Proof.
  unfold fallback_answers.
  induction items as [|[k recs] items IH]; intros reply; simpl.
  - rewrite app_nil_r. by destruct reply.
  - destruct (matchSuffix name k); [|apply IH].
    destruct (List.find is_soa recs) as [soa|]; [|apply IH].
    destruct (as_rr soa k) as [a|e]; reflexivity.
Qed.

Lemma fallback_answers_bound name items answers :
  fallback_answers name items = Ok answers ->
  (length answers <= 1)%nat /\ Forall (fun a => rr_rtype a = QTYPE.SOA) answers.
Proof.
  unfold fallback_answers.
  destruct (passed_over_or_first_authority name items)
    as [Hall | (skipped & k & recs & later & soa & -> & Hskip & Hsuf & Hfind)].
  - rewrite fallback_loop_none by assumption. intros [= <-].
    split; [simpl; lia | constructor].
  - rewrite (fallback_loop_stops _ _ _ _ _ _ _ Hskip Hsuf Hfind).
    destruct (as_rr soa k) as [a|e] eqn:Hrun; [|discriminate].
    simpl. intros [= <-]. split; [simpl; lia|].
    constructor; [|constructor].
    apply as_rr_Ok in Hrun as [_ ->]. simpl.
    apply find_some in Hfind as [_ Hsoa]. unfold is_soa in Hsoa.
    by apply bool_decide_eq_true_1 in Hsoa.
Qed.

(** X3.  When the queried name has no zone of its own, the query type
    plays no part: whatever type is asked, [resolve] ends the same way,
    with the same answers (at most one, of type SOA) or with the same
    exception, and writes nothing. *)
Theorem resolve_fallback_ignores_qtype name w :
  dict_get label_eqb (zones (self w)) name = None ->
  exists outcome : result (list RR),
    (forall answers,
       outcome = Ok answers ->
       (length answers <= 1)%nat /\
       Forall (fun a => rr_rtype a = QTYPE.SOA) answers) /\
    forall request,
      qname (q request) = name ->
      resolve request w =
        (match outcome with
         | Ok answers => Ok {| q := q request; rr := answers |}
         | Raise e => Raise e
         end, w).
Proof.
  intros Hmiss. exists (fallback_answers name (zones (self w))).
  split; [apply fallback_answers_bound|].
  intros request <-. unfold resolve, bind, gets, lift. rewrite Hmiss.
  by rewrite fallback_loop_reply.
Qed.


End MoreResolverProperties.

(** ** Further properties of the zone loop and of [Resolver.__init__] *)

Section MoreZoneProperties.
Context {lib : DnsLib} {host : Host}.

(** What one pass of the loop body does, by the kind of entry. *)
Lemma zone_body_cases zone (ZONES : zones_dict) :
  (handled zone = false /\ zone_body zone ZONES = (Ok tt, ZONES)) \/
  (exists name addr,
     well_formed zone name addr /\
     zone_body zone ZONES = (Ok tt, put_address ZONES (name, addr))) \/
  (handled zone = true /\ exists e, zone_body zone ZONES = (Raise e, ZONES)).
Proof.
  unfold handled, zone_body, bind, lift, modify, ret, getitem, well_formed.
  destruct (zone !! "type") as [ty|] eqn:Hty; [|right; right; eauto].
  destruct (decide (ty = "a")) as [-> | Hna].
  - right. simpl.
    destruct (zone !! "value") as [value|] eqn:Hval; [|right; eauto].
    destruct (rdata_check A [PStr value]) as [e|] eqn:Hlib.
    { right. split; [reflexivity|].
      unfold Record_init, rdata_new. simpl. rewrite Hlib. simpl. eauto. }
    rewrite (Record_init_address _ Hlib).
    destruct (zone !! "name") as [name|] eqn:Hname; [|right; eauto].
    left. exists name, value. split; [|reflexivity].
    split; [reflexivity|]. split; [left; done | assumption].
  - rewrite (bool_decide_eq_false_2 (ty = "a")) by assumption.
    destruct (decide (ty = "p")) as [-> | Hnp].
    + right. simpl.
      destruct (zone !! "value") as [value|] eqn:Hval; [|right; eauto].
      destruct (gethostbyname value) as [ip|e] eqn:Hhost; [|right; eauto].
      destruct (rdata_check A [PStr ip]) as [e|] eqn:Hlib.
      { right. split; [reflexivity|].
        unfold Record_init, rdata_new. simpl. rewrite Hlib. simpl. eauto. }
      rewrite (Record_init_address _ Hlib).
      destruct (zone !! "name") as [name|] eqn:Hname; [|right; eauto].
      left. exists name, ip. split; [|reflexivity].
      split; [reflexivity|]. split; [|assumption].
      right. split; [reflexivity|]. eauto.
    + rewrite (bool_decide_eq_false_2 (ty = "p")) by assumption.
      left. simpl. done.
Qed.

Lemma for_each_app {S T} (body : T -> prog S unit) (l1 l2 : list T) (s : S) :
  for_each body (l1 ++ l2) s =
    match for_each body l1 s with
    | (Ok _, s') => for_each body l2 s'
    | (Raise e, s') => (Raise e, s')
    end.
Proof.
  revert s. induction l1 as [|x l1 IH]; intros s; [reflexivity|].
  simpl. unfold bind. destruct (body x s) as [[[]|e] s']; [apply IH | reflexivity].
Qed.

(** X5.  The loop stops at the first entry that raises.  [ZONES] then
    holds what the entries before it put there, the failing entry
    leaves no trace, the entries after it are not looked at, and no
    resolver is made. *)
Theorem load_zones_stops_at_first_failure before zone after ZONES ZONES' e :
  load_zones before = (Ok tt, ZONES) ->
  zone_body zone ZONES = (Raise e, ZONES') ->
  ZONES' = ZONES /\
  load_zones (before ++ zone :: after) = (Raise e, ZONES) /\
  startup (before ++ zone :: after) = Raise e.
Proof.
  intros Hbefore Hzone.
  assert (Hsame : ZONES' = ZONES).
  { destruct (zone_body_cases zone ZONES)
      as [[_ Hrun] | [(name & addr & _ & Hrun) | [_ [e' Hrun]]]];
      congruence. }
  subst ZONES'.
  assert (Hrun : load_zones (before ++ zone :: after) = (Raise e, ZONES)).
  { unfold load_zones in *. rewrite for_each_app, Hbefore.
    simpl. unfold bind. by rewrite Hzone. }
  split; [reflexivity|]. split; [exact Hrun|].
  unfold startup. by rewrite Hrun.
Qed.

(** X6.  Entries of a type other than "a" and "p" might as well not be
    there: dropping them from the input changes neither the outcome of
    the loop nor the table it leaves. *)
Theorem load_zones_skips_unhandled entries :
  load_zones (filter (fun zone => handled zone = true) entries) = load_zones entries.
Proof.
  unfold load_zones. generalize (@nil (string * list RecordObj)) as ZONES.
  induction entries as [|zone entries IH]; intros ZONES; [reflexivity|].
  rewrite filter_cons. destruct (decide (handled zone = true)) as [Hh | Hh].
  - simpl. unfold bind.
    destruct (zone_body zone ZONES) as [[[]|e] ZONES']; [apply IH | reflexivity].
  - rewrite IH. simpl. unfold bind.
    destruct (zone_body_cases zone ZONES)
      as [[_ ->] | [(name & addr & Hwf & _) | [Hyes _]]];
      [reflexivity | | contradiction].
    exfalso. apply Hh. unfold handled.
    destruct Hwf as (_ & [[-> _] | [-> _]] & _); reflexivity.
Qed.

Lemma put_address_keys (ZONES : zones_dict) na :
  NoDup ZONES.*1 -> NoDup (put_address ZONES na).*1.
Proof.
  intros Hnd. unfold put_address. rewrite keys_dict_set.
  destruct (decide (na.1 ∈ ZONES.*1)) as [Hin | Hout].
  - by rewrite bool_decide_eq_true_2.
  - rewrite bool_decide_eq_false_2 by assumption.
    apply NoDup_app. split; [assumption|]. split.
    + intros x Hx [-> | []%elem_of_nil]%elem_of_cons. contradiction.
    + apply NoDup_singleton.
Qed.

Lemma put_address_length (ZONES : zones_dict) na :
  (length (put_address ZONES na) <= S (length ZONES))%nat.
Proof.
  unfold put_address. generalize [address_record na.2] as v.
  induction ZONES as [|[k' v'] ZONES IH]; intros v; simpl; [lia|].
  destruct (str_eqb k' na.1); simpl; [lia|]. specialize (IH v). lia.
Qed.

(** X7.  However the loop ends, no name occurs twice in [ZONES], and
    [ZONES] has at most as many names as there were entries. *)
Theorem load_zones_names_distinct entries :
  NoDup (load_zones entries).2.*1 /\
  (length (load_zones entries).2 <= length entries)%nat.
Proof.
  unfold load_zones.
  assert (Hgen : forall ZONES : zones_dict,
            NoDup ZONES.*1 ->
            NoDup (for_each zone_body entries ZONES).2.*1 /\
            (length (for_each zone_body entries ZONES).2
               <= length ZONES + length entries)%nat).
  { induction entries as [|zone entries IH]; intros ZONES Hnd.
    - simpl. split; [assumption | lia].
    - simpl. unfold bind.
      destruct (zone_body_cases zone ZONES)
        as [[_ ->] | [(name & addr & _ & ->) | [_ [e ->]]]].
      + destruct (IH ZONES Hnd). split; [assumption | lia].
      + destruct (IH _ (put_address_keys ZONES (name, addr) Hnd)) as [Hk Hl].
        split; [assumption|].
        pose proof (put_address_length ZONES (name, addr)). lia.
      + simpl. split; [assumption | lia]. }
  destruct (Hgen [] (NoDup_nil_2)) as [Hk Hl]. split; [assumption|].
  simpl in Hl. lia.
Qed.

Lemma dict_set_Forall_pairs {K} (eqb : K -> K -> bool)
    (Pk : K -> Prop) (Pv : list RecordObj -> Prop) k v
    (d : list (K * list RecordObj)) :
  Pk k -> Pv v ->
  Forall (fun z => Pk z.1 /\ Pv z.2) d ->
  Forall (fun z => Pk z.1 /\ Pv z.2) (dict_set eqb k v d).
Proof.
  intros Hk Hv. induction 1 as [|[k' v'] d [Hk' Hv'] Hd IH]; simpl.
  - by constructor.
  - destruct (eqb k' k); constructor; auto.
Qed.

Lemma dict_get_elem {K} (eqb : K -> K -> bool) (d : list (K * list RecordObj)) k v :
  dict_get eqb d k = Some v -> exists k', (k', v) ∈ d.
Proof.
  induction d as [|[k' v'] d IH]; simpl; [discriminate|].
  destruct (eqb k' k).
  - intros [= ->]. exists k'. left.
  - intros Hget. destruct (IH Hget) as [k0 Hin]. exists k0. by right.
Qed.

Lemma for_each_address_bucket all entries : forall ZONES : zones_dict,
  entries ⊆ all ->
  Forall (fun z => address_bucket all z.2) ZONES ->
  Forall (fun z => address_bucket all z.2) (for_each zone_body entries ZONES).2.
Proof.
  induction entries as [|zone entries IH]; intros ZONES Hsub Hinv; [assumption|].
  assert (Hzone : zone ∈ all) by (apply Hsub; left).
  assert (Hrest : entries ⊆ all) by (intros x Hx; apply Hsub; by right).
  simpl. unfold bind.
  destruct (zone_body_cases zone ZONES)
    as [[_ ->] | [(name & addr & Hwf & ->) | [_ [e ->]]]].
  - by apply IH.
  - apply IH; [assumption|].
    unfold put_address. apply dict_set_Forall; [|assumption].
    destruct Hwf as (_ & Hkind & Hlib).
    exists addr. split; [reflexivity|]. split; [assumption|].
    exists zone. split; assumption.
  - assumption.
Qed.

Lemma relabel_Forall (Pv : list RecordObj -> Prop) items : forall acc zs,
  relabel items acc = Ok zs ->
  Forall (fun z => Pv z.2) items ->
  Forall (fun z => Pv z.2) acc ->
  Forall (fun z => Pv z.2) zs.
Proof.
  induction items as [|[k v] items IH]; intros acc zs Hrun Hitems Hacc; simpl in Hrun.
  - by injection Hrun as <-.
  - apply Forall_cons in Hitems as [Hv Hitems].
    destruct (DNSLabel_new k) as [l|e]; [|discriminate]. simpl in Hrun.
    eapply IH; [exact Hrun | assumption |].
    by apply dict_set_Forall.
Qed.

(** X8.  In a resolver that start-up has made, a name that is served
    has exactly one record, an A record for an address that some entry
    of the input offered.  A request for the name of type A or ANY gets
    that one answer, owned by the name as it was asked, with TTL 300
    and class 1, and is logged; a request of any other type raises. *)
Theorem started_resolver_answers entries R request w zone :
  startup entries = Ok R ->
  self w = R ->
  dict_get label_eqb (zones R) (qname (q request)) = Some zone ->
  exists addr,
    zone = [address_record addr] /\
    offered entries addr /\
    (qtype (q request) = QTYPE.A \/ qtype (q request) = QTYPE.ANY ->
     resolve request w =
       (Ok {| q := q request;
              rr := [ {| rr_rname := qname (q request);
                         rr_rtype := QTYPE.A;
                         rr_rclass := 1;
                         rr_ttl := 300;
                         rr_rdata := {| rd_class := A; rd_args := [PStr addr] |} |} ] |},
        {| self := R;
           stdout := stdout w ++
                     [DNS_Match (qname (q request))
                        {| rd_class := A; rd_args := [PStr addr] |}] |})) /\
    (qtype (q request) <> QTYPE.A -> qtype (q request) <> QTYPE.ANY ->
     resolve request w = (Raise (AttributeError "rdata"), w)).
Proof.
  intros Hstart Hself Hzone. unfold startup in Hstart.
  pose proof (for_each_address_bucket entries entries [] (fun x H => H)
                (List.Forall_nil _)) as Hloop.
  fold (load_zones entries) in Hloop.
  destruct (load_zones entries) as [[[]|e] ZONES]; [|discriminate].
  simpl in Hloop. unfold Resolver_init in Hstart.
  destruct (relabel ZONES []) as [zs|e] eqn:Hrelabel; [|discriminate].
  simpl in Hstart. injection Hstart as <-. simpl in Hzone.
  pose proof (relabel_Forall _ _ _ _ Hrelabel Hloop (List.Forall_nil _)) as Hzs.
  destruct (dict_get_elem _ _ _ _ Hzone) as [k Hin].
  rewrite Forall_forall in Hzs.
  destruct (Hzs _ Hin) as (addr & Heq & Hlib & Hoffered).
  simpl in Heq. subst zone.
  exists addr. split; [reflexivity|]. split; [assumption|].
  unfold resolve, bind, gets. rewrite Hself. simpl. rewrite Hzone.
  simpl. unfold bind, print_match, try_rr. simpl. split.
  - intros [Ha | Hany].
    + rewrite (bool_decide_eq_true_2 (qtype (q request) = QTYPE.A)) by assumption.
      rewrite orb_true_r. simpl. by rewrite Hself.
    + rewrite (bool_decide_eq_true_2 (qtype (q request) = QTYPE.ANY)) by assumption.
      simpl. by rewrite Hself.
  - intros Ha Hany.
    by rewrite !bool_decide_eq_false_2 by assumption.
Qed.

Lemma relabel_ok_iff items : forall acc,
  (exists zs, relabel items acc = Ok zs) <->
  Forall (fun k => exists l, DNSLabel_new k = Ok l) items.*1.
Proof.
  induction items as [|[k v] items IH]; intros acc; simpl.
  - split; [constructor | eauto].
  - rewrite Forall_cons. destruct (DNSLabel_new k) as [l|e]; simpl.
    + rewrite IH. split; [eauto | tauto].
    + split; [by intros [zs ?] | by intros [[l ?] _]].
Qed.

Lemma dict_set_length {K V} (eqb : K -> K -> bool) k (v : V) d :
  (length (dict_set eqb k v d) <= S (length d))%nat.
Proof.
  induction d as [|[k' v'] d IH]; simpl; [lia|].
  destruct (eqb k' k); simpl; lia.
Qed.

Lemma relabel_provenance all items : forall acc zs,
  relabel items acc = Ok zs ->
  items ⊆ all ->
  Forall (fun z => (exists k, k ∈ all.*1 /\ DNSLabel_new k = Ok z.1) /\ z.2 ∈ all.*2) acc ->
  Forall (fun z => (exists k, k ∈ all.*1 /\ DNSLabel_new k = Ok z.1) /\ z.2 ∈ all.*2) zs /\
  (length zs <= length acc + length items)%nat.
Proof.
  induction items as [|[k v] items IH]; intros acc zs Hrun Hsub Hacc; simpl in Hrun.
  - injection Hrun as <-. split; [assumption | lia].
  - destruct (DNSLabel_new k) as [l|e] eqn:Hl; [|discriminate]. simpl in Hrun.
    assert (Hin : (k, v) ∈ all) by (apply Hsub; left).
    destruct (IH _ _ Hrun) as [Hzs Hlen].
    + intros x Hx. apply Hsub. by right.
    + apply (dict_set_Forall_pairs label_eqb
               (fun l => exists k, k ∈ all.*1 /\ DNSLabel_new k = Ok l)
               (fun v => v ∈ all.*2)); [| |assumption].
      * exists k. split; [|assumption].
        apply list_elem_of_fmap. by exists (k, v).
      * apply list_elem_of_fmap. by exists (k, v).
    + split; [assumption|].
      pose proof (dict_set_length label_eqb l v acc). simpl. lia.
Qed.

(** X9.  [Resolver()] succeeds exactly when every name of [ZONES] makes
    a label.  Its zones are then no more than the names of [ZONES];
    each is keyed by the label of one of those names and holds the
    record list of one of them, untouched. *)
Theorem Resolver_init_zones ZONES :
  ((exists R, Resolver_init ZONES = Ok R) <->
   Forall (fun k => exists l, DNSLabel_new k = Ok l) ZONES.*1) /\
  (forall R,
     Resolver_init ZONES = Ok R ->
     (length (zones R) <= length ZONES)%nat /\
     Forall (fun z => (exists k, k ∈ ZONES.*1 /\ DNSLabel_new k = Ok z.1) /\
                      z.2 ∈ ZONES.*2) (zones R)).
Proof.
  unfold Resolver_init. split.
  - rewrite <- (relabel_ok_iff ZONES []).
    destruct (relabel ZONES []) as [zs|e]; simpl; split; eauto.
    + by intros [R ?].
    + by intros [zs ?].
  - intros R Hinit.
    destruct (relabel ZONES []) as [zs|e] eqn:Hrun; [|discriminate].
    simpl in Hinit. injection Hinit as <-. simpl.
    destruct (relabel_provenance ZONES ZONES [] zs Hrun (fun x H => H)
                (List.Forall_nil _)) as [Hzs Hlen].
    split; [simpl in Hlen; lia | assumption].
Qed.

Section LabelEquivalence.
Hypothesis eqb_sym : forall a b, label_eqb a b = true -> label_eqb b a = true.
Hypothesis eqb_trans :
  forall a b c, label_eqb a b = true -> label_eqb b c = true -> label_eqb a c = true.

Lemma label_dict_get_set k k' v (d : label_dict) :
  dict_get label_eqb (dict_set label_eqb k v d) k' =
    if label_eqb k k' then Some v else dict_get label_eqb d k'.
Proof.
  induction d as [|[k0 v0] d IH]; simpl.
  - reflexivity.
  - destruct (label_eqb k0 k) eqn:H0k; simpl.
    + destruct (label_eqb k0 k') eqn:H0k'.
      * by rewrite (eqb_trans _ _ _ (eqb_sym _ _ H0k) H0k').
      * destruct (label_eqb k k') eqn:Hkk'; [|reflexivity].
        by rewrite (eqb_trans _ _ _ H0k Hkk') in H0k'.
    + destruct (label_eqb k0 k') eqn:H0k'; [|apply IH].
      destruct (label_eqb k k') eqn:Hkk'; [|reflexivity].
      by rewrite (eqb_trans _ _ _ H0k' (eqb_sym _ _ Hkk')) in H0k.
Qed.

Lemma relabel_lookup items l : forall acc zs,
  relabel items acc = Ok zs ->
  dict_get label_eqb zs l =
    match last_labelled l items with
    | Some v => Some v
    | None => dict_get label_eqb acc l
    end.
Proof.
  induction items as [|[k v] items IH]; intros acc zs Hrun; simpl in *.
  - by injection Hrun as <-.
  - destruct (DNSLabel_new k) as [l'|e]; [|discriminate]. simpl in Hrun.
    rewrite (IH _ _ Hrun). destruct (last_labelled l items); [reflexivity|].
    rewrite label_dict_get_set. by destruct (label_eqb l' l).
Qed.

(** X10.  When label equality is symmetric and transitive, looking a
    label up in the resolver gives the records of the last name of
    [ZONES] whose label is equal to it: names that make equal labels
    share one zone, and the later one's records are the ones served. *)
Theorem Resolver_init_lookup ZONES R l :
  Resolver_init ZONES = Ok R ->
  dict_get label_eqb (zones R) l = last_labelled l ZONES.
Proof.
  unfold Resolver_init. intros Hinit.
  destruct (relabel ZONES []) as [zs|e] eqn:Hrun; [|discriminate].
  simpl in Hinit. injection Hinit as <-. simpl.
  rewrite (relabel_lookup _ _ _ _ Hrun). by destruct (last_labelled l ZONES).
Qed.

End LabelEquivalence.

End MoreZoneProperties.

(** ** Properties of the rest of the script *)

Section ScriptProperties.
Context {lib : DnsLib} {host : Host} {runtime : Runtime}.

Lemma get_platform_other p :
  p <> "linux1" -> p <> "linux2" -> p <> "darwin" -> p <> "win32" ->
  get_platform p = p.
Proof.
  intros H1 H2 H3 H4. unfold get_platform, platforms. simpl. unfold str_eqb.
  by rewrite !bool_decide_eq_false_2 by congruence.
Qed.

Lemma get_platform_cases p :
  (p = "linux1" /\ get_platform p = "Linux") \/
  (p = "linux2" /\ get_platform p = "Linux") \/
  (p = "darwin" /\ get_platform p = "macOS") \/
  (p = "win32" /\ get_platform p = "Windows") \/
  (p <> "linux1" /\ p <> "linux2" /\ p <> "darwin" /\ p <> "win32" /\
   get_platform p = p).
Proof.
  destruct (decide (p = "linux1")) as [-> | H1]; [by left|].
  destruct (decide (p = "linux2")) as [-> | H2]; [by right; left|].
  destruct (decide (p = "darwin")) as [-> | H3]; [by right; right; left|].
  destruct (decide (p = "win32")) as [-> | H4]; [by right; right; right; left|].
  do 4 right. by rewrite get_platform_other.
Qed.

(** X11.  [get_platform] never reports one of the raw identifiers it
    knows (linux1, linux2, darwin, win32), and applying it to its own
    result changes nothing. *)
Theorem get_platform_normalises p :
  (get_platform p ∉ ["linux1"; "linux2"; "darwin"; "win32"]) /\
  get_platform (get_platform p) = get_platform p.
Proof.
  rewrite !not_elem_of_cons.
  destruct (get_platform_cases p)
    as [[-> ->] | [[-> ->] | [[-> ->] | [[-> ->] | (H1 & H2 & H3 & H4 & ->)]]]].
  - by repeat split; try apply not_elem_of_nil.
  - by repeat split; try apply not_elem_of_nil.
  - by repeat split; try apply not_elem_of_nil.
  - by repeat split; try apply not_elem_of_nil.
  - repeat split; try assumption; [apply not_elem_of_nil|].
    by apply get_platform_other.
Qed.

Lemma platform_notice_table p :
  platform_notice p =
    if bool_decide (p ∈ ["linux"; "darwin"; "macOS"]) then Some Root_notice
    else if bool_decide (p ∈ ["win32"; "Windows"]) then Some Firewall_notice
    else None.
Proof.
  destruct (get_platform_cases p)
    as [[-> _] | [[-> _] | [[-> _] | [[-> _] | (H1 & H2 & H3 & H4 & Hp)]]]];
    try reflexivity.
  unfold platform_notice. rewrite Hp.
  rewrite (bool_decide_ext (p ∈ ["linux"; "macOS"]) (p ∈ ["linux"; "darwin"; "macOS"])).
  2: { rewrite !elem_of_cons, elem_of_nil. tauto. }
  rewrite (bool_decide_ext (p = "Windows") (p ∈ ["win32"; "Windows"])).
  2: { rewrite !elem_of_cons, elem_of_nil. tauto. }
  reflexivity.
Qed.

(** X12.  The notice about running as root is printed exactly when
    [sys.platform] is linux, darwin or macOS, and the notice about the
    firewall exactly when it is win32 or Windows.  The identifiers
    linux1 and linux2, which [get_platform] reports as Linux, get no
    notice. *)
Theorem platform_notice_when p :
  (platform_notice p = Some Root_notice <-> p ∈ ["linux"; "darwin"; "macOS"]) /\
  (platform_notice p = Some Firewall_notice <-> p ∈ ["win32"; "Windows"]) /\
  platform_notice "linux1" = None /\ platform_notice "linux2" = None.
Proof.
  split; [|split; [|split; reflexivity]]; rewrite platform_notice_table.
  - destruct (decide (p ∈ ["linux"; "darwin"; "macOS"])) as [Hin | Hout].
    + by rewrite bool_decide_eq_true_2.
    + rewrite (bool_decide_eq_false_2 _ Hout).
      split; [|contradiction].
      destruct (bool_decide (p ∈ ["win32"; "Windows"])); discriminate.
  - destruct (decide (p ∈ ["linux"; "darwin"; "macOS"])) as [Hin | Hout].
    + rewrite (bool_decide_eq_true_2 _ Hin). split; [discriminate|].
      intros Hw. exfalso. revert Hin Hw.
      rewrite !elem_of_cons, !elem_of_nil.
      intros [-> | [-> | [-> | []]]] [? | [? | []]]; discriminate.
    + rewrite (bool_decide_eq_false_2 _ Hout).
      destruct (decide (p ∈ ["win32"; "Windows"])) as [Hw | Hnw].
      * by rewrite bool_decide_eq_true_2.
      * rewrite (bool_decide_eq_false_2 _ Hnw). split; [discriminate | contradiction].
Qed.

Lemma append_String c a b : String c a +:+ b = String c (a +:+ b).
Proof. reflexivity. Qed.

Lemma str_split_piece sep a b :
  str_contains sep a = false ->
  str_split sep (a +:+ String sep b) = a :: str_split sep b.
Proof.
  induction a as [|c a IH]; simpl; intros Hno.
  - by rewrite Ascii.eqb_refl.
  - apply orb_false_elim in Hno as [Hc Ha].
    rewrite Hc, (IH Ha). reflexivity.
Qed.

Lemma str_split_last sep a :
  str_contains sep a = false -> str_split sep a = [a].
Proof.
  induction a as [|c a IH]; simpl; intros Hno; [reflexivity|].
  apply orb_false_elim in Hno as [Hc Ha].
  by rewrite Hc, (IH Ha).
Qed.

Lemma length_append a b :
  String.length (a +:+ b) = (String.length a + String.length b)%nat.
Proof. induction a as [|c a IH]; simpl; [reflexivity | by rewrite IH]. Qed.

(** The three-character groups, checked for every number below 1000. *)
Lemma format_03d_group n :
  0 <= n <= 999 ->
  String.length (format_03d n) = 3%nat /\
  str_contains "." (format_03d n) = false.
Proof.
  intros Hn.
  assert (Hall : forallb (fun k =>
                    Nat.eqb (String.length (format_03d (Z.of_nat k))) 3
                    && negb (str_contains "." (format_03d (Z.of_nat k))))
                   (seq 0 1000) = true) by (vm_compute; reflexivity).
  rewrite forallb_forall in Hall.
  assert (Hin : In (Z.to_nat n) (seq 0 1000)) by (apply in_seq; lia).
  apply Hall in Hin. rewrite Z2Nat.id in Hin by lia.
  apply andb_prop in Hin as [Hlen Hdot].
  split; [by apply Nat.eqb_eq | by apply negb_true_iff].
Qed.

Lemma int_octet_Returns octets i n :
  int_octet octets i = Returns n <->
  exists o, octets !! i = Some o /\ py_int o = Some n.
Proof.
  unfold int_octet. destruct (octets !! i) as [o|].
  - destruct (py_int o) as [m|] eqn:Hm.
    + split.
      * intros [= <-]. eauto.
      * intros (o' & [= <-] & Ho). congruence.
    + split; [discriminate|].
      intros (o' & [= <-] & Ho). congruence.
  - split; [discriminate|]. by intros (o' & ? & _).
Qed.

Lemma int_octet_fault octets i f :
  int_octet octets i = Fails f -> f = IndexError \/ f = ValueError.
Proof.
  unfold int_octet. destruct (octets !! i) as [o|]; [|intros [= <-]; by left].
  destruct (py_int o); [discriminate | intros [= <-]; by right].
Qed.

(** X13.  [format_ip] returns exactly when the address has at least
    four dot-separated pieces and [int] reads the first four; the
    result is made of those four numbers, and any further piece is
    ignored.  In every other case it raises [IndexError] or
    [ValueError], and it always raises on fewer than four pieces. *)
Theorem format_ip_returns address :
  (forall s,
     format_ip address = Returns s <->
     exists p0 p1 p2 p3 more n0 n1 n2 n3,
       str_split "." address = p0 :: p1 :: p2 :: p3 :: more /\
       py_int p0 = Some n0 /\ py_int p1 = Some n1 /\
       py_int p2 = Some n2 /\ py_int p3 = Some n3 /\
       s = dotted n0 n1 n2 n3) /\
  (forall f, format_ip address = Fails f -> f = IndexError \/ f = ValueError) /\
  ((length (str_split "." address) < 4)%nat ->
   exists f, format_ip address = Fails f).
Proof.
  unfold format_ip. set (octets := str_split "." address).
  split; [|split].
  - intros s. split.
    + destruct (int_octet octets 0) as [n0|] eqn:H0; [|discriminate].
      destruct (int_octet octets 1) as [n1|] eqn:H1; [|discriminate].
      destruct (int_octet octets 2) as [n2|] eqn:H2; [|discriminate].
      destruct (int_octet octets 3) as [n3|] eqn:H3; [|discriminate].
      intros [= <-].
      apply int_octet_Returns in H0 as (p0 & Hp0 & Hn0).
      apply int_octet_Returns in H1 as (p1 & Hp1 & Hn1).
      apply int_octet_Returns in H2 as (p2 & Hp2 & Hn2).
      apply int_octet_Returns in H3 as (p3 & Hp3 & Hn3).
      destruct octets as [|q0 [|q1 [|q2 [|q3 more]]]]; try discriminate.
      simpl in *. injection Hp0 as ->. injection Hp1 as ->.
      injection Hp2 as ->. injection Hp3 as ->.
      exists p0, p1, p2, p3, more, n0, n1, n2, n3. auto 10.
    + intros (p0 & p1 & p2 & p3 & more & n0 & n1 & n2 & n3
              & -> & H0 & H1 & H2 & H3 & ->).
      unfold int_octet. simpl. by rewrite H0, H1, H2, H3.
  - intros f.
    destruct (int_octet octets 0) as [n0|f0] eqn:H0;
      [|intros [= <-]; by eapply int_octet_fault].
    destruct (int_octet octets 1) as [n1|f1] eqn:H1;
      [|intros [= <-]; by eapply int_octet_fault].
    destruct (int_octet octets 2) as [n2|f2] eqn:H2;
      [|intros [= <-]; by eapply int_octet_fault].
    destruct (int_octet octets 3) as [n3|f3] eqn:H3;
      [discriminate | intros [= <-]; by eapply int_octet_fault].
  - intros Hshort.
    destruct (int_octet octets 0) as [n0|f0] eqn:H0; [|eauto].
    destruct (int_octet octets 1) as [n1|f1] eqn:H1; [|eauto].
    destruct (int_octet octets 2) as [n2|f2] eqn:H2; [|eauto].
    destruct (int_octet octets 3) as [n3|f3] eqn:H3; [|eauto].
    apply int_octet_Returns in H3 as (p3 & Hp3 & _).
    apply lookup_lt_Some in Hp3. lia.
Qed.

Lemma dotted_split n0 n1 n2 n3 :
  0 <= n0 <= 999 -> 0 <= n1 <= 999 -> 0 <= n2 <= 999 -> 0 <= n3 <= 999 ->
  str_split "." (dotted n0 n1 n2 n3) =
    [format_03d n0; format_03d n1; format_03d n2; format_03d n3].
Proof.
  intros H0 H1 H2 H3. unfold dotted.
  destruct (format_03d_group n0 H0) as [_ D0].
  destruct (format_03d_group n1 H1) as [_ D1].
  destruct (format_03d_group n2 H2) as [_ D2].
  destruct (format_03d_group n3 H3) as [_ D3].
  change (str_split "."
            (format_03d n0 +:+ String "."
               (format_03d n1 +:+ String "."
                  (format_03d n2 +:+ String "." (format_03d n3)))) =
          [format_03d n0; format_03d n1; format_03d n2; format_03d n3]).
  rewrite (str_split_piece _ _ _ D0), (str_split_piece _ _ _ D1),
    (str_split_piece _ _ _ D2), (str_split_last _ _ D3).
  reflexivity.
Qed.

(** X14.  When the first four pieces of the address read as numbers
    from 0 to 999, the result of [format_ip] has exactly 15 characters:
    four groups of three, none containing a dot, with a dot between
    them; splitting it at the dots gives the four groups back. *)
Theorem format_ip_shape address p0 p1 p2 p3 more n0 n1 n2 n3 :
  str_split "." address = p0 :: p1 :: p2 :: p3 :: more ->
  py_int p0 = Some n0 -> py_int p1 = Some n1 ->
  py_int p2 = Some n2 -> py_int p3 = Some n3 ->
  0 <= n0 <= 999 -> 0 <= n1 <= 999 -> 0 <= n2 <= 999 -> 0 <= n3 <= 999 ->
  exists s,
    format_ip address = Returns s /\
    String.length s = 15%nat /\
    str_split "." s = [format_03d n0; format_03d n1; format_03d n2; format_03d n3] /\
    Forall (fun group => String.length group = 3%nat) (str_split "." s).
Proof.
  intros Hsplit I0 I1 I2 I3 H0 H1 H2 H3.
  exists (dotted n0 n1 n2 n3).
  destruct (format_03d_group n0 H0) as [L0 _].
  destruct (format_03d_group n1 H1) as [L1 _].
  destruct (format_03d_group n2 H2) as [L2 _].
  destruct (format_03d_group n3 H3) as [L3 _].
  split; [|split; [|split]].
  - unfold format_ip, int_octet. rewrite Hsplit. simpl.
    by rewrite I0, I1, I2, I3.
  - unfold dotted. rewrite !length_append, L0, L1, L2, L3. reflexivity.
  - by apply dotted_split.
  - rewrite dotted_split by assumption. repeat constructor; assumption.
Qed.

(** X15.  If [int] reads back what [03d] writes for the numbers from 0
    to 999, then formatting an address twice is the same as formatting
    it once, whenever its first four pieces read as such numbers. *)
Theorem format_ip_idempotent address s p0 p1 p2 p3 more n0 n1 n2 n3 :
  (forall n, 0 <= n <= 999 -> py_int (format_03d n) = Some n) ->
  str_split "." address = p0 :: p1 :: p2 :: p3 :: more ->
  py_int p0 = Some n0 -> py_int p1 = Some n1 ->
  py_int p2 = Some n2 -> py_int p3 = Some n3 ->
  0 <= n0 <= 999 -> 0 <= n1 <= 999 -> 0 <= n2 <= 999 -> 0 <= n3 <= 999 ->
  format_ip address = Returns s ->
  format_ip s = Returns s.
Proof.
  intros Hint Hsplit I0 I1 I2 I3 H0 H1 H2 H3 Hs.
  assert (Hs' : s = dotted n0 n1 n2 n3).
  { unfold format_ip, int_octet in Hs. rewrite Hsplit in Hs. simpl in Hs.
    rewrite I0, I1, I2, I3 in Hs. by injection Hs as <-. }
  subst s. unfold format_ip, int_octet.
  rewrite dotted_split by assumption. simpl.
  by rewrite !Hint by assumption.
Qed.

(** X16.  Once the probe socket exists, [get_ip] never raises.  It
    closes the socket exactly once, as its last call on it, on every
    path.  It returns what [getsockname] gave when both calls went
    through, and 127.0.0.1 when either raised; when [connect] raises,
    [getsockname] is not called. *)
Theorem get_ip_closes calls :
  exists ip made,
    get_ip calls = (Ok ip, calls ++ made ++ [Close]) /\
    (Close ∉ made) /\
    ((connect "10.255.255.255" 1 = Ok tt /\ getsockname = Ok ip /\
      made = [Connect "10.255.255.255" 1; Getsockname]) \/
     (ip = "127.0.0.1" /\
      ((exists e, connect "10.255.255.255" 1 = Raise e /\
                  made = [Connect "10.255.255.255" 1]) \/
       (exists e, getsockname = Raise e /\
                  made = [Connect "10.255.255.255" 1; Getsockname])))).
Proof.
  unfold get_ip, bind, socket_do.
  destruct (connect "10.255.255.255" 1) as [[]|e] eqn:Hconnect.
  - destruct getsockname as [ip|e] eqn:Hname.
    + exists ip, [Connect "10.255.255.255" 1; Getsockname].
      split; [by rewrite <- !app_assoc|]. split; [|by left].
      intros Hin. repeat (apply elem_of_cons in Hin as [Hin | Hin]; [discriminate|]).
      by apply elem_of_nil in Hin.
    + exists "127.0.0.1", [Connect "10.255.255.255" 1; Getsockname].
      split; [by rewrite <- !app_assoc|]. split; [|right; split; [reflexivity|]; right; eauto].
      intros Hin. repeat (apply elem_of_cons in Hin as [Hin | Hin]; [discriminate|]).
      by apply elem_of_nil in Hin.
  - exists "127.0.0.1", [Connect "10.255.255.255" 1].
    split; [by rewrite <- !app_assoc|]. split; [|right; split; [reflexivity|]; left; eauto].
    intros Hin. repeat (apply elem_of_cons in Hin as [Hin | Hin]; [discriminate|]).
    by apply elem_of_nil in Hin.
Qed.

(** X17.  The script gets as far as a resolver exactly when the request
    returned a response, the text with the pointers spliced in parsed,
    and start-up on the parsed entries made that resolver.  The only
    line printed is then the one that says the information was
    loaded. *)
Theorem script_serves_iff platform R g :
  script platform = (Returns R, g) <->
  exists text entries,
    get "https://insignia.live/dns_zones.json" (user_agent platform) = Response text /\
    loads (str_replace "]" spliced text) = Some entries /\
    startup entries = Ok R /\
    g = {| g_get_zones := Some text;
           g_zones := Some entries;
           g_ZONES := (load_zones entries).2;
           g_console := [Info_loaded] |}.
Proof.
  unfold script, fetch, parse, fill, make_resolver, say, startup, load_zones.
  destruct (get _ _) as [text| |message]; simpl;
    [|split; [discriminate | by intros (text' & entries' & ? & _)]..].
  destruct (loads _) as [entries|] eqn:Hloads; simpl.
  2: { split; [discriminate|].
       intros (text' & entries' & Hget & Hl & _).
       injection Hget as <-. congruence. }
  destruct (for_each zone_body entries []) as [[[]|e] ZONES] eqn:Hloop; simpl.
  2: { split; [discriminate|].
       intros (text' & entries' & Hget & Hl & Hstart & _).
       injection Hget as <-. rewrite Hloads in Hl. injection Hl as <-.
       rewrite Hloop in Hstart. discriminate. }
  destruct (Resolver_init ZONES) as [R'|e] eqn:Hinit; simpl.
  2: { split; [discriminate|].
       intros (text' & entries' & Hget & Hl & Hstart & _).
       injection Hget as <-. rewrite Hloads in Hl. injection Hl as <-.
       rewrite Hloop in Hstart. congruence. }
  split.
  - intros [= <- <-]. exists text, entries. rewrite Hloop. auto.
  - intros (text' & entries' & Hget & Hl & Hstart & ->).
    injection Hget as <-. rewrite Hloads in Hl. injection Hl as <-.
    rewrite Hloop in *. simpl. congruence.
Qed.

(** X18.  How the script ends when no resolver is made.  A request
    error other than a timeout prints its message and exits with
    status 1.  A timeout prints its message and then ends in
    [NameError] for [get_zones]; a response that does not parse prints
    its message and then ends in [NameError] for [zones].  An exception
    of the zone loop or of [Resolver()] ends the script as it is. *)
Theorem script_failures platform :
  (get "https://insignia.live/dns_zones.json" (user_agent platform) = Timeout ->
   script platform =
     (Fails (NameError "get_zones"),
      {| g_get_zones := None; g_zones := None; g_ZONES := [];
         g_console := [Error_timeout] |})) /\
  (forall message,
     get "https://insignia.live/dns_zones.json" (user_agent platform)
       = RequestException message ->
     script platform =
       (Fails (SystemExit 1),
        {| g_get_zones := None; g_zones := None; g_ZONES := [];
           g_console := [Error_request message] |})) /\
  (forall text,
     get "https://insignia.live/dns_zones.json" (user_agent platform) = Response text ->
     loads (str_replace "]" spliced text) = None ->
     script platform =
       (Fails (NameError "zones"),
        {| g_get_zones := Some text; g_zones := None; g_ZONES := [];
           g_console := [Error_invalid_response] |})) /\
  (forall text entries e,
     get "https://insignia.live/dns_zones.json" (user_agent platform) = Response text ->
     loads (str_replace "]" spliced text) = Some entries ->
     startup entries = Raise e ->
     (script platform).1 = Fails (Uncaught e)).
Proof.
  unfold script, fetch, parse, fill, make_resolver, say.
  split; [|split; [|split]].
  - by intros ->.
  - by intros message ->.
  - intros text -> Hloads. simpl. by rewrite Hloads.
  - intros text entries e -> Hloads. simpl. rewrite Hloads. simpl.
    unfold startup, load_zones.
    destruct (for_each zone_body entries []) as [[[]|e'] ZONES]; simpl.
    + intros ->. reflexivity.
    + by intros [= ->].
Qed.

Lemma append_assoc_str a b c : (a +:+ b) +:+ c = a +:+ (b +:+ c).
Proof.
  induction a as [|x a IH]; [reflexivity|].
  by rewrite !append_String, IH.
Qed.

Lemma str_replace_app old new a b :
  str_replace old new (a +:+ b) = str_replace old new a +:+ str_replace old new b.
Proof.
  induction a as [|c a IH]; [reflexivity|].
  rewrite append_String. simpl.
  destruct (Ascii.eqb c old); rewrite IH;
    [by rewrite append_assoc_str | by rewrite append_String].
Qed.

Lemma str_replace_absent old new a :
  str_contains old a = false -> str_replace old new a = a.
Proof.
  induction a as [|c a IH]; simpl; intros Hno; [reflexivity|].
  apply orb_false_elim in Hno as [Hc Ha]. by rewrite Hc, (IH Ha).
Qed.

(** X19.  The text handed to the parser.  A response without a closing
    bracket is handed on as it is.  A response with one closing
    bracket, at its end, is handed on with the five pointer entries put
    before that bracket.  In general every closing bracket of the
    response, wherever it stands, gets the five entries put before
    it. *)
Theorem spliced_text :
  (forall body,
     str_contains "]" body = false ->
     str_replace "]" spliced body = body /\
     str_replace "]" spliced (body +:+ "]") = body +:+ spliced) /\
  (forall before after,
     str_replace "]" spliced (before +:+ "]" +:+ after) =
       str_replace "]" spliced before +:+ spliced +:+ str_replace "]" spliced after).
Proof.
  split.
  - intros body Hno. split; [by apply str_replace_absent|].
    rewrite str_replace_app, (str_replace_absent _ _ _ Hno). reflexivity.
  - intros before after. rewrite !str_replace_app. reflexivity.
Qed.

End ScriptProperties.

(** ** The further properties on concrete runs *)

Module MoreCases.
Import Reference Examples RuntimeReference.


(** X3, witness: [www.example.com] under [com] with an SOA record,
    whatever the type asked. *)
Lemma resolve_fallback_ignores_qtype_witness :
  exists outcome : result (list RR),
    (forall answers,
       outcome = Ok answers ->
       (length answers <= 1)%nat /\
       Forall (fun a => rr_rtype a = QTYPE.SOA) answers) /\
    forall req,
      qname (q req) = ["www"; "example"; "com"] ->
      resolve req (serving shadowing) =
        (match outcome with
         | Ok answers => Ok {| q := q req; rr := answers |}
         | Raise e => Raise e
         end, serving shadowing).
Proof.
  apply (resolve_fallback_ignores_qtype (lib := Reference.lib)
           ["www"; "example"; "com"] (serving shadowing)).
  reflexivity.
Defined.


(** X5, witness: the second of three entries has no value. *)
Lemma load_zones_stops_at_first_failure_witness :
  load_zones [good_entry; no_value; unreached]
    = (Raise (KeyError "value"), [("x.com", [address_record "1.1.1.1"])]) /\
  startup [good_entry; no_value; unreached] = Raise (KeyError "value").
Proof.
  assert (Hbefore : load_zones [good_entry]
                    = (Ok tt, [("x.com", [address_record "1.1.1.1"])]))
    by reflexivity.
  assert (Hzone : zone_body no_value [("x.com", [address_record "1.1.1.1"])]
                  = (Raise (KeyError "value"), [("x.com", [address_record "1.1.1.1"])]))
    by reflexivity.
  destruct (load_zones_stops_at_first_failure [good_entry] no_value [unreached]
              _ _ _ Hbefore Hzone) as (_ & Hloop & Hstart).
  split; assumption.
Defined.

(** X8, witness: the resolver made from one entry, asked for its name
    with type A. *)
Lemma started_resolver_answers_witness :
  exists addr,
    [address_record "1.2.3.4"] = [address_record addr] /\
    offered one_entry addr /\
    resolve (request "example.com" QTYPE.A) (serving one_zone) =
      (Ok {| q := q (request "example.com" QTYPE.A);
             rr := [ {| rr_rname := ["example"; "com"];
                        rr_rtype := QTYPE.A;
                        rr_rclass := 1;
                        rr_ttl := 300;
                        rr_rdata := {| rd_class := A; rd_args := [PStr addr] |} |} ] |},
       {| self := {| zones := one_zone |};
          stdout := [DNS_Match ["example"; "com"]
                       {| rd_class := A; rd_args := [PStr addr] |}] |}).
Proof.
  destruct (started_resolver_answers one_entry {| zones := one_zone |}
              (request "example.com" QTYPE.A) (serving one_zone)
              [address_record "1.2.3.4"] eq_refl eq_refl eq_refl)
    as (addr & Hzone & Hoffered & Hanswer & _).
  exists addr. split; [exact Hzone|]. split; [exact Hoffered|].
  apply Hanswer. left. reflexivity.
Defined.

(** X9, witness: three names, two of which make the same label. *)
Lemma Resolver_init_zones_witness :
  (exists R, Resolver_init mixed_case = Ok R) /\
  (length merged <= length mixed_case)%nat /\
  Forall (fun z => (exists k, k ∈ mixed_case.*1 /\ DNSLabel_new k = Ok z.1) /\
                   z.2 ∈ mixed_case.*2) merged.
Proof.
  destruct (Resolver_init_zones mixed_case) as [Hiff Hzones].
  split.
  - apply Hiff. repeat constructor; eexists; reflexivity.
  - apply (Hzones {| zones := merged |}). reflexivity.
Defined.

Lemma labels_eqb_lower a : forall b,
  labels_eqb a b = true <-> map lower a = map lower b.
Proof.
  induction a as [|x a IH]; intros [|y b]; simpl; try (split; [done | discriminate]).
  - split; reflexivity.
  - rewrite andb_true_iff, IH. unfold str_eqb. rewrite bool_decide_eq_true.
    split; [intros [-> ->]; reflexivity | intros [= -> ->]; done].
Qed.

Lemma labels_eqb_sym a b : labels_eqb a b = true -> labels_eqb b a = true.
Proof. rewrite !labels_eqb_lower. congruence. Qed.

Lemma labels_eqb_trans a b c :
  labels_eqb a b = true -> labels_eqb b c = true -> labels_eqb a c = true.
Proof. rewrite !labels_eqb_lower. congruence. Qed.

(** X10, witness: [example.com] in any spelling finds the records of
    the later of the two names that make that label. *)
Lemma Resolver_init_lookup_witness :
  dict_get label_eqb merged shouted = Some [address_record "2.2.2.2"].
Proof.
  exact (Resolver_init_lookup labels_eqb_sym labels_eqb_trans
           mixed_case {| zones := merged |} shouted eq_refl).
Defined.

(** X13, witness: three pieces are too few; a fifth piece is ignored. *)
Lemma format_ip_returns_witness :
  (exists f, format_ip (runtime := online) "10.0.1" = Fails f) /\
  format_ip (runtime := online) "10.0.1.7.99" = Returns "010.000.001.007".
Proof.
  destruct (format_ip_returns (runtime := online) "10.0.1") as (_ & _ & Hshort).
  destruct (format_ip_returns (runtime := online) "10.0.1.7.99") as (Hiff & _ & _).
  split.
  - apply Hshort. simpl. lia.
  - apply Hiff. exists "10", "0", "1", "7", ["99"], 10, 0, 1, 7. done.
Defined.

(** X14, witness: the address of the machine. *)
Lemma format_ip_shape_witness :
  exists s,
    format_ip (runtime := online) "192.168.1.10" = Returns s /\
    String.length s = 15%nat /\
    str_split "." s = ["192"; "168"; "001"; "010"] /\
    Forall (fun group => String.length group = 3%nat) (str_split "." s).
Proof.
  apply (format_ip_shape (runtime := online) "192.168.1.10"
           "192" "168" "1" "10" [] 192 168 1 10);
    first [reflexivity | lia].
Defined.

Lemma digits_int_reads_back n :
  0 <= n <= 999 -> digits_int (format_03d n) = Some n.
Proof.
  intros Hn.
  assert (Hall : forallb (fun k =>
                    match digits_int (format_03d (Z.of_nat k)) with
                    | Some m => Z.eqb m (Z.of_nat k)
                    | None => false
                    end) (seq 0 1000) = true) by (vm_compute; reflexivity).
  rewrite forallb_forall in Hall.
  assert (Hin : In (Z.to_nat n) (seq 0 1000)) by (apply in_seq; lia).
  apply Hall in Hin. rewrite Z2Nat.id in Hin by lia.
  destruct (digits_int (format_03d n)) as [m|]; [|discriminate].
  apply Z.eqb_eq in Hin. by subst.
Qed.

(** X15, witness: the formatted address of the machine, formatted
    again. *)
Lemma format_ip_idempotent_witness :
  format_ip (runtime := online) "192.168.001.010" = Returns "192.168.001.010".
Proof.
  apply (format_ip_idempotent (runtime := online) "192.168.1.10" "192.168.001.010"
           "192" "168" "1" "10" [] 192 168 1 10);
    first [exact digits_int_reads_back | reflexivity | lia].
Defined.

(** X17, witness: the machine on the network gets the resolver of the
    one entry. *)
Lemma script_serves_iff_witness :
  script (runtime := online) "linux"
    = (Returns {| zones := one_zone |},
       {| g_get_zones := Some "[]";
          g_zones := Some one_entry;
          g_ZONES := [("example.com", [address_record "1.2.3.4"])];
          g_console := [Info_loaded] |}).
Proof.
  apply (script_serves_iff (runtime := online) "linux").
  exists "[]", one_entry. repeat split.
Defined.

(** X18, witness: a timeout, and a response that is not JSON. *)
Lemma script_failures_witness :
  script (runtime := timing_out) "linux"
    = (Fails (NameError "get_zones"),
       {| g_get_zones := None; g_zones := None; g_ZONES := [];
          g_console := [Error_timeout] |}) /\
  script (runtime := garbled) "linux"
    = (Fails (NameError "zones"),
       {| g_get_zones := Some "<html>"; g_zones := None; g_ZONES := [];
          g_console := [Error_invalid_response] |}).
Proof.
  split.
  - apply (script_failures (runtime := timing_out) "linux"). reflexivity.
  - destruct (script_failures (runtime := garbled) "linux") as (_ & _ & Hparse & _).
    apply Hparse; reflexivity.
Defined.

(** X19, witness: a response that is a list of two numbers. *)
Lemma spliced_text_witness :
  str_replace "]" spliced "[1,2]" = "[1,2" +:+ spliced.
Proof.
  destruct spliced_text as [Hflat _].
  destruct (Hflat "[1,2" eq_refl) as [_ Hend]. exact Hend.
Defined.

(** X20, witness: an instance of a class that [TYPE_LOOKUP] does not
    list, given with an explicit rtype. *)
Lemma Record_init_failures_witness :
  Record_init (Instance_ {| rd_class := OtherRD "PTR"; rd_args := [PStr "host.example.com"] |})
    [] (Some 12) None None None = Raise (KeyError "PTR").
Proof.
  destruct (Record_init_failures [] (Some 12) None None None) as (Hunknown & _).
  destruct (Hunknown "PTR" {| rd_class := OtherRD "PTR";
                              rd_args := [PStr "host.example.com"] |}) as [_ Hinstance].
  apply Hinstance. reflexivity.
Defined.

End MoreCases.
